(** * btc-txn-builder: a shallow embedding of [bitcoin_transaction_builder.py]

    The development follows [src/btc-txn-builder/app/bitcoin_transaction_builder.py]:
    the three entity classes, the [BitcoinTransactionBuilder] methods, and the
    Python run-time behaviour they rely on (unbounded integers, exceptions,
    list indexing with negative indices, [int.to_bytes], [struct.pack],
    [bytes.hex], [sorted]).  Methods are functions in a state-and-exception
    monad over the builder object. *)

From Stdlib Require Import ZArith List String Ascii Lia DecimalString Sorting.Sorted.
From Stdlib.Strings Require Import Byte.
From stdpp Require Import base list strings.

Local Open Scope Z_scope.

(** ** Python run-time model *)

Module Py.

(** [bytes] objects. *)
Definition bytes := list byte.

(** The exceptions the builder can raise.  [ValueError] carries its message;
    [StructError] is [struct.error]; [UnicodeEncodeError] is what
    [str.encode] raises; [MalformedPointError] is what
    [ecdsa.SigningKey.from_string] raises on bad key material. *)
Inductive exn : Type :=
| ValueError (msg : string)
| IndexError
| OverflowError
| StructError
| UnicodeEncodeError
| MalformedPointError
| SigningError.

Inductive result (A : Type) : Type :=
| Ok (a : A)
| Raise (e : exn).
Arguments Ok {A} a.
Arguments Raise {A} e.

(** A computation over a mutable state [St]: the state it leaves behind
    (also when it raises) and either a value or the exception raised. *)
Definition M (St A : Type) : Type := St -> St * result A.

Definition ret {St A} (a : A) : M St A := fun s => (s, Ok a).
Definition raise {St A} (e : exn) : M St A := fun s => (s, Raise e).
Definition bind {St A B} (m : M St A) (k : A -> M St B) : M St B :=
  fun s => match m s with
           | (s', Ok a) => k a s'
           | (s', Raise e) => (s', Raise e)
           end.
Definition get {St} : M St St := fun s => (s, Ok s).
Definition put {St} (s' : St) : M St unit := fun _ => (s', Ok tt).
Definition lift {St A} (r : result A) : M St A := fun s => (s, r).

(** [str(n)] for an [int]. *)
Definition str (n : Z) : string := NilZero.string_of_int (Z.to_int n).

(** [n.to_bytes(1, 'little')]: one byte, [OverflowError] outside 0..255
    (a negative value cannot be converted to unsigned either). *)
Definition to_bytes1 (n : Z) : result bytes :=
  if n <? 0 then Raise OverflowError
  else match Byte.of_N (Z.to_N n) with
       | Some b => Ok [b]
       | None => Raise OverflowError
       end.

(** The low byte of a non-negative integer. *)
Definition low_byte (n : Z) : byte :=
  match Byte.of_N (Z.to_N (n mod 256)) with
  | Some b => b
  | None => x00
  end.

(** [w] bytes of [n], least significant first. *)
Fixpoint le_bytes (w : nat) (n : Z) : bytes :=
  match w with
  | O => []
  | S w' => low_byte n :: le_bytes w' (n / 256)
  end.

(** The value of a byte, [w] bytes of [n] most significant first
    ([n.to_bytes(w, 'big')] without its range check), and the integer a
    big-endian byte string denotes ([int.from_bytes(b, 'big')]). *)
Definition byte_val (b : byte) : Z := Z.of_N (Byte.to_N b).

Fixpoint be_bytes (w : nat) (n : Z) : bytes :=
  match w with
  | O => []
  | S w' => low_byte (n / 256 ^ Z.of_nat w') :: be_bytes w' n
  end.

Definition be_int (b : bytes) : Z :=
  fold_left (fun acc x => acc * 256 + byte_val x) b 0.

(** The integer a little-endian byte string denotes. *)
Definition le_int (b : bytes) : Z :=
  foldr (fun x acc => byte_val x + 256 * acc) 0 b.

(** [struct.pack("<I", n)]: four little-endian bytes, [struct.error] when
    [n] is not in 0..2^32-1. *)
Definition struct_pack_I (n : Z) : result bytes :=
  if (0 <=? n) && (n <? 2 ^ 32) then Ok (le_bytes 4 n) else Raise StructError.

(** [bytes([n])]: [ValueError] unless [n] is in range(256). *)
Definition bytes_of_int (n : Z) : result bytes :=
  if (0 <=? n) && (n <? 256)
  then Ok [low_byte n]
  else Raise (ValueError "bytes must be in range(0, 256)").

(** A [str] that is encoded: its code points, numbers up to 0x10FFFF.  A
    [str] can hold the surrogates D800..DFFF (a lone surrogate comes, for
    one, out of [json.loads]); UTF-8 has no encoding for them. *)
Definition text : Type := list Z.

(** The [str] a literal of ASCII characters denotes. *)
Definition literal (s : string) : text := map byte_val (list_byte_of_string s).

Definition scalar_value (c : Z) : bool :=
  ((0 <=? c) && (c <? 0xD800)) || ((0xDFFF <? c) && (c <=? 0x10FFFF)).

(** UTF-8: one to four bytes for a code point. *)
Definition utf8_char (c : Z) : bytes :=
  if c <? 0x80 then [low_byte c]
  else if c <? 0x800 then [low_byte (0xC0 + c / 64); low_byte (0x80 + c mod 64)]
  else if c <? 0x10000 then
    [low_byte (0xE0 + c / 4096); low_byte (0x80 + c / 64 mod 64);
     low_byte (0x80 + c mod 64)]
  else
    [low_byte (0xF0 + c / 262144); low_byte (0x80 + c / 4096 mod 64);
     low_byte (0x80 + c / 64 mod 64); low_byte (0x80 + c mod 64)].

Definition utf8 (s : text) : bytes := concat (map utf8_char s).

(** [s.encode()]: the UTF-8 bytes, [UnicodeEncodeError] when [s] holds a
    surrogate (or a number that is no code point). *)
Definition encode (s : text) : result bytes :=
  if forallb scalar_value s then Ok (utf8 s) else Raise UnicodeEncodeError.

(** [b.hex()]: two lowercase hexadecimal digits per byte. *)
Definition hex_digit (n : N) : ascii :=
  match n with
  | 0%N => "0" | 1%N => "1" | 2%N => "2" | 3%N => "3"
  | 4%N => "4" | 5%N => "5" | 6%N => "6" | 7%N => "7"
  | 8%N => "8" | 9%N => "9" | 10%N => "a" | 11%N => "b"
  | 12%N => "c" | 13%N => "d" | 14%N => "e" | _ => "f"
  end%char.

Fixpoint hex (b : bytes) : string :=
  match b with
  | [] => EmptyString
  | x :: b' =>
      String (hex_digit (Byte.to_N x / 16))
        (String (hex_digit (Byte.to_N x mod 16)) (hex b'))
  end.

(** Resolution of a subscript [l[i]] on a sequence of length [n]:
    0 <= i < n is taken as it is, -n <= i < 0 counts from the end,
    anything else raises [IndexError]. *)
Definition index (n : nat) (i : Z) : option nat :=
  if 0 <=? i
  then (if i <? Z.of_nat n then Some (Z.to_nat i) else None)
  else (if - Z.of_nat n <=? i then Some (Z.to_nat (Z.of_nat n + i)) else None).

Definition getitem {A} (l : list A) (i : Z) : result A :=
  match index (length l) i with
  | Some k => match l !! k with
              | Some x => Ok x
              | None => Raise IndexError
              end
  | None => Raise IndexError
  end.

(** [sorted(l, key=key, reverse=True)]: descending by key, and stable:
    elements with equal keys keep the order they have in [l].  An element
    is moved to the right past the elements of strictly larger key only. *)
Fixpoint insert_desc {A} (key : A -> Z) (x : A) (l : list A) : list A :=
  match l with
  | [] => [x]
  | y :: l' => if key x <? key y then y :: insert_desc key x l'
               else x :: y :: l'
  end.

Fixpoint sorted_reverse {A} (key : A -> Z) (l : list A) : list A :=
  match l with
  | [] => []
  | x :: l' => insert_desc key x (sorted_reverse key l')
  end.

(** The order [sorted_reverse] establishes, and the elements of one key. *)
Definition desc {A} (key : A -> Z) (x y : A) : Prop := key y <= key x.

Definition with_key {A} (key : A -> Z) (k : Z) (l : list A) : list A :=
  List.filter (fun x => key x =? k) l.

(** Truth value of an optional string ([None] and [""] are false). *)
Definition truthy_str (o : option string) : bool :=
  match o with
  | Some (String _ _) => true
  | _ => false
  end.

End Py.

Import Py.

Declare Scope py_scope.
Delimit Scope py_scope with py.
Notation "x <- m ;; k" := (bind m (fun x => k))
  (at level 100, m at next level, right associativity) : py_scope.
Local Open Scope py_scope.

(** ** Entity classes *)

Module UTXO.
Record t : Type := Build {
  txid : text;
  vout : Z;
  amount : Z;            (* in satoshis *)
  script_pubkey : string
}.
End UTXO.

Module TransactionInput.
Record t : Type := Build {
  txid : text;
  vout : Z;
  script_sig : option bytes;
  witness : option bytes;
  sequence : Z
}.

(** [TransactionInput.__init__] *)
Definition init (utxo : UTXO.t) : t :=
  {| txid := UTXO.txid utxo;
     vout := UTXO.vout utxo;
     script_sig := None;
     witness := None;
     sequence := 0xffffffff |}.

(** Assignment to the [script_sig] attribute. *)
Definition set_script_sig (s : bytes) (i : t) : t :=
  {| txid := txid i;
     vout := vout i;
     script_sig := Some s;
     witness := witness i;
     sequence := sequence i |}.
End TransactionInput.

Module TransactionOutput.
Record t : Type := Build {
  amount : Z;
  script_pubkey : string
}.
End TransactionOutput.

(** ** The builder object

    [add_input] allocates a fresh [TransactionInput] on every call, so no two
    slots of [inputs] share an object and the list is modelled by value. *)

Record BitcoinTransactionBuilder : Type := Builder {
  inputs : list TransactionInput.t;
  outputs : list TransactionOutput.t;
  fee_rate : Z;                      (* satoshis per vbyte *)
  change_address : option string
}.

(** [BitcoinTransactionBuilder.__init__] *)
Definition init : BitcoinTransactionBuilder :=
  {| inputs := []; outputs := []; fee_rate := 1; change_address := None |}.

Definition set_inputs (l : list TransactionInput.t) (self : BitcoinTransactionBuilder) :=
  {| inputs := l; outputs := outputs self;
     fee_rate := fee_rate self; change_address := change_address self |}.

Definition set_outputs (l : list TransactionOutput.t) (self : BitcoinTransactionBuilder) :=
  {| inputs := inputs self; outputs := l;
     fee_rate := fee_rate self; change_address := change_address self |}.

(** Methods run over the builder. *)
Abbreviation Method := (M BitcoinTransactionBuilder).

(** ** Coin selection *)

Definition sum_amount (l : list UTXO.t) : Z :=
  foldr (fun u acc => UTXO.amount u + acc) 0 l.

(** The [for] loop of [select_utxos]: [selected_utxos] and [total_amount]
    are the loop-carried variables; the loop leaves at the first element
    that brings the total to the target. *)
Fixpoint select_loop (sorted_utxos : list UTXO.t) (target_amount : Z)
    (selected_utxos : list UTXO.t) (total_amount : Z) : list UTXO.t * Z :=
  match sorted_utxos with
  | [] => (selected_utxos, total_amount)
  | utxo :: rest =>
      let selected_utxos := selected_utxos ++ [utxo] in
      let total_amount := total_amount + UTXO.amount utxo in
      if total_amount >=? target_amount
      then (selected_utxos, total_amount)
      else select_loop rest target_amount selected_utxos total_amount
  end.

Definition insufficient_funds (have need : Z) : exn :=
  ValueError ("Insufficient funds: have " ++ str have ++ ", need " ++ str need).

(** [select_utxos] runs over the builder and the caller's [available_utxos]
    list object, which it reads through [sorted] only. *)
Definition select_utxos (target_amount : Z)
  : M (BitcoinTransactionBuilder * list UTXO.t) (list UTXO.t) :=
  st <- get ;;
  let available_utxos := snd st in
  let sorted_utxos := sorted_reverse UTXO.amount available_utxos in
  let '(selected_utxos, total_amount) :=
    select_loop sorted_utxos target_amount [] 0 in
  if total_amount <? target_amount
  then raise (insufficient_funds total_amount target_amount)
  else ret selected_utxos.

(** ** Inputs, outputs, fee and change *)

Definition add_input (utxo : UTXO.t) : Method unit :=
  self <- get ;;
  put (set_inputs (inputs self ++ [TransactionInput.init utxo]) self).

Definition add_output (amount : Z) (script_pubkey : string) : Method unit :=
  self <- get ;;
  put (set_outputs (outputs self ++ [TransactionOutput.Build amount script_pubkey]) self).

Definition calculate_fee : Method Z :=
  self <- get ;;
  let estimated_vsize :=
    10 + Z.of_nat (length (inputs self)) * 68
       + Z.of_nat (length (outputs self)) * 34 in
  ret (estimated_vsize * fee_rate self).

Definition add_change_output (input_amount output_amount fee : Z) : Method unit :=
  self <- get ;;
  let change_amount := input_amount - output_amount - fee in
  if (change_amount >=? 546) && truthy_str (change_address self)
  then match change_address self with
       | Some addr => add_output change_amount addr
       | None => ret tt
       end
  else ret tt.

(** ** [hashlib.sha256]

    SHA-256 as FIPS 180-4 defines it, on 32-bit words held in [Z].  The
    library is not part of the repository; the function is written out so
    that digests can be evaluated. *)
Module SHA256.

Definition w32 (x : Z) : Z := x mod 2 ^ 32.
Definition add32 (x y : Z) : Z := w32 (x + y).
Definition rotr (n x : Z) : Z :=
  Z.lor (Z.shiftr x n) (w32 (Z.shiftl x (32 - n))).

Definition Ch (x y z : Z) : Z :=
  Z.lxor (Z.land x y) (Z.land (Z.lxor x 0xffffffff) z).
Definition Maj (x y z : Z) : Z :=
  Z.lxor (Z.lxor (Z.land x y) (Z.land x z)) (Z.land y z).
Definition bsig0 (x : Z) : Z := Z.lxor (Z.lxor (rotr 2 x) (rotr 13 x)) (rotr 22 x).
Definition bsig1 (x : Z) : Z := Z.lxor (Z.lxor (rotr 6 x) (rotr 11 x)) (rotr 25 x).
Definition ssig0 (x : Z) : Z := Z.lxor (Z.lxor (rotr 7 x) (rotr 18 x)) (Z.shiftr x 3).
Definition ssig1 (x : Z) : Z := Z.lxor (Z.lxor (rotr 17 x) (rotr 19 x)) (Z.shiftr x 10).

(** The largest [r] below [2 ^ bits] with [r ^ 3 <= n]. *)
Fixpoint cube_root (bits : nat) (n r : Z) : Z :=
  match bits with
  | O => r
  | S b =>
      let r' := r + 2 ^ Z.of_nat b in
      cube_root b n (if r' * r' * r' <=? n then r' else r)
  end.

Definition primes : list Z :=
  [2; 3; 5; 7; 11; 13; 17; 19; 23; 29; 31; 37; 41; 43; 47; 53;
   59; 61; 67; 71; 73; 79; 83; 89; 97; 101; 103; 107; 109; 113; 127; 131;
   137; 139; 149; 151; 157; 163; 167; 173; 179; 181; 191; 193; 197; 199; 211; 223;
   227; 229; 233; 239; 241; 251; 257; 263; 269; 271; 277; 281; 283; 293; 307; 311].

(** Round constants: the first 32 bits of the fractional parts of the cube
    roots of the first 64 primes. *)
Definition K : list Z :=
  Eval vm_compute in map (fun p => w32 (cube_root 40 (p * 2 ^ 96) 0)) primes.

(** Initial hash value: the same of the square roots of the first 8 primes. *)
Definition H0 : list Z :=
  Eval vm_compute in map (fun p => w32 (Z.sqrt (p * 2 ^ 64))) (take 8 primes).

(** Padding: a one bit, zero bits up to 56 modulo 64 bytes, and the length
    of the message in bits on 8 bytes. *)
Definition pad (msg : bytes) : bytes :=
  let len := Z.of_nat (length msg) in
  msg ++ [x80] ++ repeat x00 (Z.to_nat ((55 - len) mod 64)) ++ be_bytes 8 (8 * len).

(** The words of a block, 4 bytes each. *)
Fixpoint words (n : nat) (b : bytes) : list Z :=
  match n with
  | O => []
  | S n' => be_int (take 4 b) :: words n' (drop 4 b)
  end.

Definition word_at (l : list Z) (i : nat) : Z := nth i l 0.

Record state : Type := State {
  ha : Z; hb : Z; hc : Z; hd : Z; he : Z; hf : Z; hg : Z; hh : Z
}.

(** One round: [win] holds the sixteen most recent words of the message
    schedule, the current one first. *)
Definition round (acc : state * list Z) (k : Z) : state * list Z :=
  let '(s, win) := acc in
  let wt := word_at win 0 in
  let t1 := add32 (add32 (add32 (add32 (hh s) (bsig1 (he s))) (Ch (he s) (hf s) (hg s))) k) wt in
  let t2 := add32 (bsig0 (ha s)) (Maj (ha s) (hb s) (hc s)) in
  let next :=
    add32 (add32 (add32 (ssig1 (word_at win 14)) (word_at win 9))
                 (ssig0 (word_at win 1))) wt in
  (State (add32 t1 t2) (ha s) (hb s) (hc s) (add32 (hd s) t1) (he s) (hf s) (hg s),
   drop 1 win ++ [next]).

Definition compress (h : state) (block : bytes) : state :=
  let s := fst (fold_left round K (h, words 16 block)) in
  State (add32 (ha h) (ha s)) (add32 (hb h) (hb s)) (add32 (hc h) (hc s))
        (add32 (hd h) (hd s)) (add32 (he h) (he s)) (add32 (hf h) (hf s))
        (add32 (hg h) (hg s)) (add32 (hh h) (hh s)).

Fixpoint blocks (n : nat) (h : state) (b : bytes) : state :=
  match n with
  | O => h
  | S n' => blocks n' (compress h (take 64 b)) (drop 64 b)
  end.

Definition initial : state :=
  State (word_at H0 0) (word_at H0 1) (word_at H0 2) (word_at H0 3)
        (word_at H0 4) (word_at H0 5) (word_at H0 6) (word_at H0 7).

(** [hashlib.sha256(msg).digest()] *)
Definition digest (msg : bytes) : bytes :=
  let p := pad msg in
  let s := blocks (length p / 64)%nat initial p in
  be_bytes 4 (ha s) ++ be_bytes 4 (hb s) ++ be_bytes 4 (hc s) ++ be_bytes 4 (hd s)
  ++ be_bytes 4 (he s) ++ be_bytes 4 (hf s) ++ be_bytes 4 (hg s) ++ be_bytes 4 (hh s).

End SHA256.

(** ** The [ecdsa] library

    What [sign_input] uses of it: [SigningKey.from_string(key, curve=SECP256k1)],
    [sign_digest(digest, sigencode=sigencode_der)], which draws a nonce from
    the system's random source (the [Entropy] argument here), and
    [get_verifying_key().to_string()]. *)
Class ECDSA : Type := {
  SigningKey : Type;
  Entropy : Type;
  from_string : bytes -> result SigningKey;
  sign_digest : SigningKey -> bytes -> Entropy -> result bytes;
  verifying_key_to_string : SigningKey -> bytes
}.

(** Sizes on secp256k1: a DER signature has at most 72 bytes, a raw public
    key has 64. *)
Record ECDSA_sizes (E : ECDSA) : Prop := {
  der_length : forall sk digest k der,
    sign_digest sk digest k = Ok der -> (length der <= 72)%nat;
  pubkey_length : forall sk, length (verifying_key_to_string sk) = 64%nat
}.

(** ** Signature hash, signing, assembly *)

(** The operands of the concatenation are evaluated from left to right. *)
Definition create_signature_hash (input_index sig_hash_type : Z) : Method bytes :=
  self <- get ;;
  version <- lift (struct_pack_I 1) ;;
  input_count <- lift (to_bytes1 (Z.of_nat (length (inputs self)))) ;;
  input <- lift (getitem (inputs self) input_index) ;;
  txid <- lift (encode (TransactionInput.txid input)) ;;
  input' <- lift (getitem (inputs self) input_index) ;;
  vout <- lift (struct_pack_I (TransactionInput.vout input')) ;;
  output_count <- lift (to_bytes1 (Z.of_nat (length (outputs self)))) ;;
  let data_to_sign := version ++ input_count ++ txid ++ vout ++ output_count in
  ret (SHA256.digest (SHA256.digest data_to_sign)).

(** [self.inputs[input_index].script_sig = script]: the subscript is
    resolved as in [getitem], then the attribute of that object is set. *)
Definition set_input_script_sig (input_index : Z) (script : bytes) : Method unit :=
  self <- get ;;
  match index (length (inputs self)) input_index with
  | Some k =>
      match inputs self !! k with
      | Some _ =>
          put (set_inputs (alter (TransactionInput.set_script_sig script) k (inputs self)) self)
      | None => raise IndexError
      end
  | None => raise IndexError
  end.

(** [sig_hash_type] has the default [0x01] in the source. *)
Definition SIGHASH_ALL : Z := 0x01.

Definition sign_input `{ECDSA} (input_index : Z) (private_key : bytes)
    (sig_hash_type : Z) (entropy : Entropy) : Method unit :=
  sig_hash <- create_signature_hash input_index sig_hash_type ;;
  signing_key <- lift (from_string private_key) ;;
  signature <- lift (sign_digest signing_key sig_hash entropy) ;;
  suffix <- lift (bytes_of_int sig_hash_type) ;;
  let signature := signature ++ suffix in
  let public_key := verifying_key_to_string signing_key in
  signature_len <- lift (to_bytes1 (Z.of_nat (length signature))) ;;
  public_key_len <- lift (to_bytes1 (Z.of_nat (length public_key))) ;;
  set_input_script_sig input_index
    (signature_len ++ signature ++ public_key_len ++ public_key).

(** The dictionary [build] returns, with its fixed keys as fields. *)
Module Transaction.
Record input_record : Type := Input {
  txid : text;
  vout : Z;
  script_sig : string;
  sequence : Z
}.
Record output_record : Type := Output {
  amount : Z;
  script_pubkey : string
}.
Record t : Type := Build {
  version : Z;
  inputs : list input_record;
  outputs : list output_record;
  locktime : Z
}.
End Transaction.

Definition build_input (input : TransactionInput.t) : Transaction.input_record :=
  {| Transaction.txid := TransactionInput.txid input;
     Transaction.vout := TransactionInput.vout input;
     Transaction.script_sig :=
       match TransactionInput.script_sig input with
       | Some (b :: script) => hex (b :: script)
       | _ => EmptyString
       end;
     Transaction.sequence := TransactionInput.sequence input |}.

Definition build_output (output : TransactionOutput.t) : Transaction.output_record :=
  {| Transaction.amount := TransactionOutput.amount output;
     Transaction.script_pubkey := TransactionOutput.script_pubkey output |}.

Definition build : Method Transaction.t :=
  self <- get ;;
  ret {| Transaction.version := 1;
         Transaction.inputs := map build_input (inputs self);
         Transaction.outputs := map build_output (outputs self);
         Transaction.locktime := 0 |}.

(** ** An [ecdsa] instance: secp256k1

    The curve arithmetic, the key check of [SigningKey.from_string], the
    signature equation and the DER encoding of [sigencode_der], written out
    so that [sign_input] can be evaluated.  The nonce, which the library
    draws with [randrange(order)], is the [Entropy] argument. *)
Module Secp256k1.

Definition p : Z := 2 ^ 256 - 2 ^ 32 - 977.
Definition order : Z :=
  0xFFFFFFFFFFFFFFFFFFFFFFFFFFFFFFFEBAAEDCE6AF48A03BBFD25E8CD0364141.
Definition generator : Z * Z :=
  (0x79BE667EF9DCBBAC55A06295CE870B07029BFCDB2DCE28D959F2815B16F81798,
   0x483ADA7726A3C4655DA4FBFC0E1108A8FD17B448A68554199C47D08FFB10D4B8).

(** Inverse modulo [m] by the extended Euclidean algorithm. *)
Fixpoint egcd (fuel : nat) (r0 r1 s0 s1 : Z) : Z :=
  match fuel with
  | O => s0
  | S f => if r1 =? 0 then s0
           else let q := r0 / r1 in egcd f r1 (r0 - q * r1) s1 (s0 - q * s1)
  end.

Definition inverse_mod (a m : Z) : Z := egcd 1024 (a mod m) m 1 0 mod m.

(** Points in Jacobian coordinates; the third coordinate is 0 at infinity. *)
Definition jacobi : Type := Z * Z * Z.

Definition double (P : jacobi) : jacobi :=
  let '(X, Y, Zc) := P in
  if Y =? 0 then (0, 1, 0) else
  let YY := Y * Y mod p in
  let S := 4 * X * YY mod p in
  let M := 3 * X * X mod p in
  let X' := (M * M - 2 * S) mod p in
  (X', (M * (S - X') - 8 * YY * YY) mod p, 2 * Y * Zc mod p).

Definition add (P Q : jacobi) : jacobi :=
  let '(X1, Y1, Z1) := P in
  let '(X2, Y2, Z2) := Q in
  if Z1 =? 0 then Q else if Z2 =? 0 then P else
  let Z1Z1 := Z1 * Z1 mod p in
  let Z2Z2 := Z2 * Z2 mod p in
  let U1 := X1 * Z2Z2 mod p in
  let U2 := X2 * Z1Z1 mod p in
  let S1 := Y1 * Z2 mod p * Z2Z2 mod p in
  let S2 := Y2 * Z1 mod p * Z1Z1 mod p in
  if U1 =? U2 then (if S1 =? S2 then double P else (0, 1, 0)) else
  let H := (U2 - U1) mod p in
  let R := (S2 - S1) mod p in
  let HH := H * H mod p in
  let HHH := H * HH mod p in
  let V := U1 * HH mod p in
  let X3 := (R * R - HHH - 2 * V) mod p in
  (X3, (R * (V - X3) - S1 * HHH) mod p, H * Z1 mod p * Z2 mod p).

Fixpoint mul_pos (k : positive) (P : jacobi) : jacobi :=
  match k with
  | xH => P
  | xO k' => double (mul_pos k' P)
  | xI k' => add (double (mul_pos k' P)) P
  end.

Definition to_affine (P : jacobi) : option (Z * Z) :=
  let '(X, Y, Zc) := P in
  if Zc =? 0 then None else
  let zi := inverse_mod Zc p in
  let zi2 := zi * zi mod p in
  Some (X * zi2 mod p, Y * zi2 mod p * zi mod p).

(** [k * P], [None] for the point at infinity. *)
Definition mul (k : Z) (P : Z * Z) : option (Z * Z) :=
  match k with
  | Zpos k' => to_affine (mul_pos k' (fst P, snd P, 1))
  | _ => None
  end.

Record signing_key : Type := Key {
  secexp : Z;
  pubkey : Z * Z
}.

(** [SigningKey.from_string]: 32 bytes, with 1 <= secexp < order. *)
Definition from_string (s : bytes) : result signing_key :=
  if negb (Nat.eqb (length s) 32) then Raise MalformedPointError
  else
    let d := be_int s in
    if (1 <=? d) && (d <? order)
    then match mul d generator with
         | Some Q => Ok (Key d Q)
         | None => Raise MalformedPointError
         end
    else Raise MalformedPointError.

(** The ECDSA equation; an r or s of zero is refused. *)
Definition sign_number (d z k : Z) : result (Z * Z) :=
  let k := k mod order in
  match mul k generator with
  | None => Raise SigningError
  | Some (x, _) =>
      let r := x mod order in
      if r =? 0 then Raise SigningError
      else
        let s := inverse_mod k order * ((z + d * r mod order) mod order) mod order in
        if s =? 0 then Raise SigningError else Ok (r, s)
  end.

(** DER. *)
Definition byte_length (n : Z) : nat := S (Z.to_nat (Z.log2 n / 8)).

Definition encode_length (l : nat) : bytes :=
  if (l <? 128)%nat then [low_byte (Z.of_nat l)]
  else
    let w := byte_length (Z.of_nat l) in
    low_byte (128 + Z.of_nat w) :: be_bytes w (Z.of_nat l).

Definition encode_integer (r : Z) : bytes :=
  let s := be_bytes (byte_length r) r in
  match s with
  | b :: _ =>
      if byte_val b <=? 127
      then x02 :: encode_length (length s) ++ s
      else x02 :: encode_length (S (length s)) ++ x00 :: s
  | [] => []
  end.

Definition encode_sequence (pieces : list bytes) : bytes :=
  let body := concat pieces in
  x30 :: encode_length (length body) ++ body.

Definition sigencode_der (r s : Z) : bytes :=
  encode_sequence [encode_integer r; encode_integer s].

(** [sign_digest(digest, sigencode=sigencode_der)]: a digest longer than
    the curve's 32 bytes is refused. *)
Definition sign_digest (sk : signing_key) (digest : bytes) (k : Z) : result bytes :=
  if (32 <? length digest)%nat then Raise SigningError
  else match sign_number (secexp sk) (be_int digest) k with
       | Ok (r, s) => Ok (sigencode_der r s)
       | Raise e => Raise e
       end.

(** [get_verifying_key().to_string()]: x and y on 32 bytes each. *)
Definition verifying_key_to_string (sk : signing_key) : bytes :=
  be_bytes 32 (fst (pubkey sk)) ++ be_bytes 32 (snd (pubkey sk)).

End Secp256k1.

#[export] Instance secp256k1 : ECDSA := {|
  SigningKey := Secp256k1.signing_key;
  Entropy := Z;
  from_string := Secp256k1.from_string;
  sign_digest := Secp256k1.sign_digest;
  verifying_key_to_string := Secp256k1.verifying_key_to_string
|}.

(** ** Statements and fixtures *)

(** The selection property as the specification words it: with enough funds
    the call returns a prefix of the descending list that covers the target,
    and the selection without its last element does not cover it. *)
Definition selection_sufficient_as_stated
    (self : BitcoinTransactionBuilder) (available : list UTXO.t) (target : Z) : Prop :=
  target <= sum_amount available ->
  exists selected,
    select_utxos target (self, available) = ((self, available), Ok selected)
    /\ selected `prefix_of` sorted_reverse UTXO.amount available
    /\ target <= sum_amount selected
    /\ (forall init last, selected = init ++ [last] -> sum_amount init < target).

(** The fixture of [test_bitcoin_transaction.py]. *)
Definition test_utxos : list UTXO.t :=
  [ UTXO.Build (literal "abc123def456") 0 100000 "76a914aa";
    UTXO.Build (literal "def456abc123") 1 200000 "76a914bb" ].

(** The builder of [test_fee_calculation] and [test_transaction_signing]:
    one input, one output. *)
Definition test_builder : BitcoinTransactionBuilder :=
  {| inputs := [TransactionInput.init
                  (UTXO.Build (literal "abc123def456") 0 100000 "76a914aa")];
     outputs := [TransactionOutput.Build 50000 "76a914test"];
     fee_rate := 1;
     change_address := Some "76a914cc" |}.

(** A builder after [n] calls of [add_input] with one UTXO. *)
Definition with_inputs (n : nat) (utxo : UTXO.t) : BitcoinTransactionBuilder :=
  Nat.iter n (fun self => fst (add_input utxo self)) init.

(** A change address is configured when the attribute is true in a condition. *)
Definition change_configured (self : BitcoinTransactionBuilder) : Prop :=
  truthy_str (change_address self) = true.

(** Lowercase hexadecimal digits. *)
Definition lower_hex (c : ascii) : Prop :=
  In c (list_ascii_of_string "0123456789abcdef").

(** The byte string the signature hash is taken of, as the specification
    lists it: version 1 on four little-endian bytes, the input count on one
    byte, the bytes [txid] of the input's transaction id, its output index
    [vout] on four little-endian bytes, the output count on one byte. *)
Definition data_to_sign (self : BitcoinTransactionBuilder)
    (txid : bytes) (vout : Z) : bytes :=
  [x01; x00; x00; x00]
  ++ [low_byte (Z.of_nat (length (inputs self)))]
  ++ txid
  ++ le_bytes 4 vout
  ++ [low_byte (Z.of_nat (length (outputs self)))].

Definition double_sha256 (b : bytes) : bytes := SHA256.digest (SHA256.digest b).

(** The unlocking script: [len(signature)][signature][len(pubkey)][pubkey],
    the signature being the DER signature and the sighash type byte. *)
Definition unlocking_script (der : bytes) (sig_hash_type : Z) (public_key : bytes) : bytes :=
  let signature := der ++ [low_byte sig_hash_type] in
  [low_byte (Z.of_nat (length signature))] ++ signature
  ++ [low_byte (Z.of_nat (length public_key))] ++ public_key.

(** The builder with the script of the input in slot [k] set. *)
Definition signed_at (k : nat) (script : bytes) (self : BitcoinTransactionBuilder) :=
  set_inputs (alter (TransactionInput.set_script_sig script) k (inputs self)) self.

(** What [create_signature_hash] comes to, case by case, in the order the
    source evaluates the pieces of [data_to_sign]. *)
Definition signature_hash_outcome (self : BitcoinTransactionBuilder) (i : Z)
  : result bytes :=
  if 255 <? Z.of_nat (length (inputs self)) then Raise OverflowError
  else match getitem (inputs self) i with
       | Raise _ => Raise IndexError
       | Ok input =>
           match encode (TransactionInput.txid input) with
           | Raise _ => Raise UnicodeEncodeError
           | Ok txid =>
               if (0 <=? TransactionInput.vout input)
                  && (TransactionInput.vout input <? 2 ^ 32)
               then if 255 <? Z.of_nat (length (outputs self))
                    then Raise OverflowError
                    else Ok (double_sha256
                               (data_to_sign self txid (TransactionInput.vout input)))
               else Raise StructError
           end
       end.

(** C3 as the specification words it: for every builder and every index in
    [0, n) there is a 32-byte digest, the double SHA-256 of the serialized
    fields. *)
Definition signature_hash_as_stated
    (self : BitcoinTransactionBuilder) (i sig_hash_type : Z) : Prop :=
  0 <= i < Z.of_nat (length (inputs self)) ->
  exists input txid d,
    inputs self !! Z.to_nat i = Some input
    /\ encode (TransactionInput.txid input) = Ok txid
    /\ create_signature_hash i sig_hash_type self = (self, Ok d)
    /\ d = double_sha256 (data_to_sign self txid (TransactionInput.vout input))
    /\ length d = 32%nat.

(** C10 as the specification words it, first half: with at most 255 inputs
    and at most 255 outputs the digest exists for every index in [0, n). *)
Definition signature_hash_total_as_stated
    (self : BitcoinTransactionBuilder) : Prop :=
  (length (inputs self) <= 255)%nat -> (length (outputs self) <= 255)%nat ->
  forall i sig_hash_type,
    0 <= i < Z.of_nat (length (inputs self)) ->
    exists d, create_signature_hash i sig_hash_type self = (self, Ok d).

(** One UTXO for the builders of the examples. *)
Definition utxo0 : UTXO.t :=
  UTXO.Build (literal "abc123def456") 0 100000 "76a914aa".

(** The bytes of its transaction id. *)
Definition txid0 : bytes := utf8 (literal "abc123def456").

(** One input whose output index does not fit 32 bits. *)
Definition wide_vout_builder : BitcoinTransactionBuilder :=
  with_inputs 1 (UTXO.Build (literal "abc123def456") 4294967296 100000 "76a914aa").

(** A private key (secret exponent 7) and a nonce for the examples. *)
Definition key7 : bytes := repeat x00 31 ++ [x07].
Definition nonce5 : Z := 5.

(** C4 as the specification words it: with at least one input, an index in
    [0, n) and a key the library accepts, the call sets the script of that
    input. *)
Definition sign_input_as_stated `{ECDSA}
    (self : BitcoinTransactionBuilder) (i : Z) (key : bytes) (entropy : Entropy) : Prop :=
  (1 <= length (inputs self))%nat ->
  0 <= i < Z.of_nat (length (inputs self)) ->
  (exists sk, from_string key = Ok sk) ->
  exists script,
    sign_input i key SIGHASH_ALL entropy self
    = (signed_at (Z.to_nat i) script self, Ok tt).

(** C9 as the specification words it: the same for an index in [-n, 0),
    which selects input n + i. *)
Definition sign_input_negative_as_stated `{ECDSA}
    (self : BitcoinTransactionBuilder) (i : Z) (key : bytes) (entropy : Entropy) : Prop :=
  (1 <= length (inputs self))%nat ->
  - Z.of_nat (length (inputs self)) <= i < 0 ->
  (exists sk, from_string key = Ok sk) ->
  exists script,
    sign_input i key SIGHASH_ALL entropy self
    = (signed_at (Z.to_nat (Z.of_nat (length (inputs self)) + i)) script self, Ok tt).

(** C7 as the specification words it: every index outside [0, n) makes
    the call raise [IndexError] and leave the builder as it is. *)
Definition sign_input_out_of_range_as_stated `{ECDSA}
    (self : BitcoinTransactionBuilder) (i : Z) (key : bytes) (entropy : Entropy) : Prop :=
  ~ 0 <= i < Z.of_nat (length (inputs self)) ->
  sign_input i key SIGHASH_ALL entropy self = (self, Raise IndexError).

(** The key object of [key7] and the DER signature it gives, with
    [nonce5], on the signature hash of the input of [test_builder]. *)
Definition sk7 : Secp256k1.signing_key :=
  Eval vm_compute in
    match Secp256k1.from_string key7 with
    | Ok sk => sk
    | Raise _ => Secp256k1.Key 0 (0, 0)
    end.

Definition der7 : bytes :=
  Eval vm_compute in
    match Secp256k1.sign_digest sk7
            (double_sha256 (data_to_sign test_builder txid0 0))
            nonce5 with
    | Ok der => der
    | Raise _ => []
    end.

(** A builder with the two UTXOs of the fixture as inputs and one output,
    the bytes of the second input's transaction id, and the DER signature
    [key7] gives with [nonce5] on the signature hash of the second input. *)
Definition two_input_builder : BitcoinTransactionBuilder :=
  {| inputs := map TransactionInput.init test_utxos;
     outputs := [TransactionOutput.Build 50000 "76a914test"];
     fee_rate := 1;
     change_address := Some "76a914cc" |}.

Definition utxo1 : UTXO.t :=
  UTXO.Build (literal "def456abc123") 1 200000 "76a914bb".

Definition txid1 : bytes := utf8 (literal "def456abc123").

Definition der_second : bytes :=
  Eval vm_compute in
    match Secp256k1.sign_digest sk7
            (double_sha256 (data_to_sign two_input_builder txid1 1))
            nonce5 with
    | Ok der => der
    | Raise _ => []
    end.

(** A UTXO whose transaction id holds a lone surrogate. *)
Definition surrogate_utxo : UTXO.t :=
  UTXO.Build [0xD800] 0 100000 "76a914aa".

(** C2 as the specification words it: every list of UTXOs whose total is
    below the target makes the call raise and leaves the builder and the
    candidate list as they were. *)
Definition selection_insufficient_as_stated
    (self : BitcoinTransactionBuilder) (available : list UTXO.t) (target : Z) : Prop :=
  sum_amount available < target ->
  exists e, select_utxos target (self, available) = ((self, available), Raise e).

(** ** Calls of the builder's methods, for properties over call sequences *)

(** The total of a list of outputs. *)
Definition sum_outputs (l : list TransactionOutput.t) : Z :=
  foldr (fun o acc => TransactionOutput.amount o + acc) 0 l.

(** What identifies the outpoint an input spends. *)
Definition outpoint (i : TransactionInput.t) : text * Z :=
  (TransactionInput.txid i, TransactionInput.vout i).

(** A call of one method of the builder with its arguments. *)
Inductive call `{ECDSA} : Type :=
| AddInput (utxo : UTXO.t)
| AddOutput (amount : Z) (script_pubkey : string)
| CalculateFee
| AddChangeOutput (input_amount output_amount fee : Z)
| SignInput (input_index : Z) (private_key : bytes) (sig_hash_type : Z) (entropy : Entropy)
| CreateSignatureHash (input_index sig_hash_type : Z)
| Build.

(** The builder a call leaves behind, whether it returned or raised. *)
Definition perform `{ECDSA} (c : call) (self : BitcoinTransactionBuilder)
  : BitcoinTransactionBuilder :=
  match c with
  | AddInput utxo => fst (add_input utxo self)
  | AddOutput amount script_pubkey => fst (add_output amount script_pubkey self)
  | CalculateFee => fst (calculate_fee self)
  | AddChangeOutput input_amount output_amount fee =>
      fst (add_change_output input_amount output_amount fee self)
  | SignInput input_index private_key sig_hash_type entropy =>
      fst (sign_input input_index private_key sig_hash_type entropy self)
  | CreateSignatureHash input_index sig_hash_type =>
      fst (create_signature_hash input_index sig_hash_type self)
  | Build => fst (build self)
  end.

Definition perform_all `{ECDSA} (cs : list call) (self : BitcoinTransactionBuilder)
  : BitcoinTransactionBuilder :=
  fold_left (fun s c => perform c s) cs self.

(** A script of the form [len(sig)][sig][len(pk)][pk] with both lengths in
    one byte and a signature that is not empty. *)
Definition script_well_formed (script : bytes) : Prop :=
  exists signature public_key,
    signature <> []
    /\ (length signature <= 255)%nat
    /\ (length public_key <= 255)%nat
    /\ script = [low_byte (Z.of_nat (length signature))] ++ signature
                ++ [low_byte (Z.of_nat (length public_key))] ++ public_key.

(** An input as the methods make and keep it. *)
Definition input_well_formed (i : TransactionInput.t) : Prop :=
  TransactionInput.sequence i = 0xffffffff
  /\ TransactionInput.witness i = None
  /\ (forall script, TransactionInput.script_sig i = Some script ->
        script_well_formed script).

(** Reading one UTF-8 character back: the code point and the bytes left. *)
Definition decode_char (l : bytes) : option (Z * bytes) :=
  match l with
  | [] => None
  | b1 :: r =>
      let v1 := byte_val b1 in
      if v1 <? 0x80 then Some (v1, r)
      else if v1 <? 0xE0 then
        match r with
        | b2 :: r => Some ((v1 - 0xC0) * 64 + (byte_val b2 - 0x80), r)
        | _ => None
        end
      else if v1 <? 0xF0 then
        match r with
        | b2 :: b3 :: r =>
            Some ((v1 - 0xE0) * 4096 + (byte_val b2 - 0x80) * 64
                  + (byte_val b3 - 0x80), r)
        | _ => None
        end
      else
        match r with
        | b2 :: b3 :: b4 :: r =>
            Some ((v1 - 0xF0) * 262144 + (byte_val b2 - 0x80) * 4096
                  + (byte_val b3 - 0x80) * 64 + (byte_val b4 - 0x80), r)
        | _ => None
        end
  end.
(** * Properties *)

(** ** [sorted(..., reverse=True)] *)

Section Sorted.
Context {A : Type} (key : A -> Z).

Lemma insert_desc_perm x l : insert_desc key x l ≡ₚ x :: l.
Proof.
  induction l as [|y l IH]; simpl; [done|].
  destruct (key x <? key y); [|done].
  rewrite IH. apply Permutation_swap.
Qed.

Lemma sorted_reverse_perm l : sorted_reverse key l ≡ₚ l.
Proof.
  induction l as [|x l IH]; simpl; [done|].
  rewrite insert_desc_perm. by rewrite IH.
Qed.

Lemma insert_desc_sorted x l :
  StronglySorted (desc key) l -> StronglySorted (desc key) (insert_desc key x l).
Proof.
  induction 1 as [|y l Hl IH Hy]; simpl.
  - repeat constructor.
  - destruct (Z.ltb_spec (key x) (key y)) as [Hlt|Hge].
    + constructor; [exact IH|].
      rewrite insert_desc_perm. constructor; [unfold desc; lia|exact Hy].
    + constructor; [by constructor|].
      constructor; [unfold desc; lia|].
      eapply Forall_impl; [exact Hy|]. unfold desc. intros z Hz. simpl in *. lia.
Qed.

Lemma sorted_reverse_sorted l : StronglySorted (desc key) (sorted_reverse key l).
Proof.
  induction l as [|x l IH]; simpl; [constructor|].
  by apply insert_desc_sorted.
Qed.

(** Stability: among the elements of one key value, the order of [l] is kept. *)
Lemma insert_desc_with_key k x l :
  StronglySorted (desc key) l ->
  with_key key k (insert_desc key x l) = with_key key k (x :: l).
Proof.
  induction 1 as [|y l Hl IH Hy]; [done|].
  cbn [insert_desc]. destruct (Z.ltb_spec (key x) (key y)) as [Hlt|Hge]; [|done].
  unfold with_key in *. cbn [List.filter] in *. rewrite IH.
  destruct (Z.eqb_spec (key x) k), (Z.eqb_spec (key y) k); try done. lia.
Qed.

Lemma sorted_reverse_stable k l :
  with_key key k (sorted_reverse key l) = with_key key k l.
Proof.
  induction l as [|x l IH]; [done|]. cbn [sorted_reverse].
  rewrite insert_desc_with_key by apply sorted_reverse_sorted.
  unfold with_key in *. cbn [List.filter]. by rewrite IH.
Qed.

(** A descending list is determined by its elements of each key, in their
    order: [sorted_reverse] is the only stable descending arrangement. *)
Lemma with_key_In k x l : In x (with_key key k l) <-> In x l /\ key x = k.
Proof.
  unfold with_key. by rewrite List.filter_In, Z.eqb_eq.
Qed.

Lemma with_key_head x l : with_key key (key x) (x :: l) = x :: with_key key (key x) l.
Proof. unfold with_key. cbn [List.filter]. by rewrite Z.eqb_refl. Qed.

Lemma desc_head_max x y l :
  StronglySorted (desc key) (y :: l) -> In x (y :: l) -> key x <= key y.
Proof.
  intros Hs Hin. apply StronglySorted_inv in Hs as [_ Hall].
  destruct Hin as [->|Hin]; [lia|].
  rewrite List.Forall_forall in Hall. by apply Hall.
Qed.

Lemma stable_desc_unique l1 l2 :
  StronglySorted (desc key) l1 -> StronglySorted (desc key) l2 ->
  (forall k, with_key key k l1 = with_key key k l2) -> l1 = l2.
Proof.
  revert l2. induction l1 as [|x l1 IH]; intros l2 H1 H2 Hf.
  - destruct l2 as [|y l2]; [done|].
    specialize (Hf (key y)). rewrite with_key_head in Hf. discriminate Hf.
  - destruct l2 as [|y l2].
    { specialize (Hf (key x)). rewrite with_key_head in Hf. discriminate Hf. }
    assert (Hxy : key x = key y).
    { assert (Hx : In x (y :: l2)).
      { apply (with_key_In (key x)). rewrite <- Hf, with_key_head. by left. }
      assert (Hy : In y (x :: l1)).
      { apply (with_key_In (key y)). rewrite Hf, with_key_head. by left. }
      pose proof (desc_head_max _ _ _ H2 Hx). pose proof (desc_head_max _ _ _ H1 Hy). lia. }
    pose proof (Hf (key x)) as Hhead.
    rewrite with_key_head, Hxy, with_key_head in Hhead.
    injection Hhead as -> Hhead. f_equal.
    apply StronglySorted_inv in H1 as [H1 _]. apply StronglySorted_inv in H2 as [H2 _].
    apply IH; [done..|]. intros k. specialize (Hf k).
    unfold with_key in *. cbn [List.filter] in Hf.
    destruct (key y =? k); [by injection Hf|done].
Qed.

Lemma sorted_reverse_unique l l' :
  StronglySorted (desc key) l' ->
  (forall k, with_key key k l' = with_key key k l) ->
  l' = sorted_reverse key l.
Proof.
  intros Hs Hf. apply stable_desc_unique; [done|apply sorted_reverse_sorted|].
  intros k. by rewrite Hf, sorted_reverse_stable.
Qed.
End Sorted.

(** ** Coin selection *)

Lemma sum_amount_app l1 l2 :
  sum_amount (l1 ++ l2) = sum_amount l1 + sum_amount l2.
Proof. induction l1 as [|u l1 IH]; simpl; [done|]. unfold sum_amount in *. simpl. lia. Qed.

Lemma sum_amount_perm l1 l2 : l1 ≡ₚ l2 -> sum_amount l1 = sum_amount l2.
Proof.
  induction 1; unfold sum_amount in *; simpl; lia.
Qed.

Lemma sum_amount_sorted l :
  sum_amount (sorted_reverse UTXO.amount l) = sum_amount l.
Proof. apply sum_amount_perm, sorted_reverse_perm. Qed.

(** What the loop computes: it appends a prefix [pre] of the list it walks;
    it either left at the last element of [pre], which reached the target, or
    walked the whole list without reaching it; and no shorter non-empty
    prefix reached the target. *)
Lemma select_loop_spec l target sel tot :
  exists pre,
    select_loop l target sel tot = (sel ++ pre, tot + sum_amount pre)
    /\ pre `prefix_of` l
    /\ ((pre <> [] /\ tot + sum_amount pre >= target)
        \/ (pre = l /\ (l = [] \/ tot + sum_amount l < target)))
    /\ (forall p q, pre = p ++ q -> p <> [] -> q <> [] ->
                    tot + sum_amount p < target).
Proof.
  revert sel tot. induction l as [|u l IH]; intros sel tot.
  - exists []. simpl. rewrite app_nil_r, Z.add_0_r. split_and!.
    + done.
    + done.
    + by right; split; [|left].
    + intros p q Hpq. symmetry in Hpq. apply app_eq_nil in Hpq as [-> _]. done.
  - cbn [select_loop]. destruct (Z.geb_spec (tot + UTXO.amount u) target) as [Hge|Hlt].
    + exists [u]. unfold sum_amount; simpl. rewrite Z.add_0_r. split_and!.
      * done.
      * by exists l.
      * left. split; [done|lia].
      * intros p q Hpq Hp Hq. destruct p as [|x p]; [done|].
        injection Hpq as _ Hpq. destruct p; [|done]. simpl in Hpq. by subst q.
    + destruct (IH (sel ++ [u]) (tot + UTXO.amount u)) as (pre & Heq & Hpre & Hend & Hmin).
      exists (u :: pre). rewrite Heq, <- app_assoc. simpl.
      replace (sum_amount (u :: pre)) with (UTXO.amount u + sum_amount pre) by done.
      split_and!.
      * f_equal. lia.
      * by apply prefix_cons.
      * destruct Hend as [[Hne Hge]|[-> Hl]].
        -- left. split; [done|lia].
        -- right. split; [done|]. right.
           replace (sum_amount (u :: l)) with (UTXO.amount u + sum_amount l) by done.
           destruct Hl as [->|Hl]; [unfold sum_amount; simpl|]; lia.
      * intros p q Hpq Hp Hq. destruct p as [|x p]; [done|].
        injection Hpq as <- Hpq.
        replace (sum_amount (u :: p)) with (UTXO.amount u + sum_amount p) by done.
        destruct p as [|y p].
        -- unfold sum_amount; simpl. lia.
        -- specialize (Hmin (y :: p) q Hpq). rewrite Z.add_assoc. apply Hmin; done.
Qed.

(** With amounts that are not negative, a prefix never sums to more than the
    whole list. *)
Lemma sum_amount_prefix_le pre l :
  Forall (fun u => 0 <= UTXO.amount u) l ->
  pre `prefix_of` l -> sum_amount pre <= sum_amount l.
Proof.
  intros Hl [k ->]. rewrite sum_amount_app.
  apply Forall_app in Hl as [_ Hk].
  assert (0 <= sum_amount k); [|lia].
  induction Hk as [|u k Hu _ IH]; unfold sum_amount in *; simpl; lia.
Qed.

(** In a descending list whose head is negative, the sum is at most the head. *)
Lemma sum_amount_desc_neg u l :
  StronglySorted (desc UTXO.amount) (u :: l) ->
  UTXO.amount u < 0 -> sum_amount (u :: l) <= UTXO.amount u.
Proof.
  intros Hs Hu. apply StronglySorted_inv in Hs as [_ Hall].
  replace (sum_amount (u :: l)) with (UTXO.amount u + sum_amount l) by done.
  assert (sum_amount l <= 0); [|lia].
  induction Hall as [|x l Hx _ IH]; unfold sum_amount, desc in *; simpl in *; lia.
Qed.

(** C1, as stated, fails at target 0: the loop appends the first element of
    the sorted list before it compares, so one UTXO of 5 satoshis is selected
    for target 0 and the selection without it, of sum 0, still covers the
    target. *)
Lemma select_utxos_target_zero_not_minimal :
  ~ selection_sufficient_as_stated init [UTXO.Build (literal "aa") 0 5 "76a9"] 0.
Proof.
  intros H. destruct H as (sel & Hrun & _ & _ & Hmin).
  - vm_compute. discriminate.
  - vm_compute in Hrun. injection Hrun as <-.
    specialize (Hmin [] _ eq_refl). vm_compute in Hmin. discriminate.
Qed.

(** C1 (amended): for every list of UTXOs whose total is at least the target,
    [select_utxos] returns a prefix of the list sorted by amount descending
    (a stable, descending permutation of the candidates) whose sum is at
    least the target, and leaves the builder and the candidate list as they
    were.  The selection without its last element sums strictly below the
    target whenever the target is positive or that shorter selection is not
    empty; for a target of zero or less the selection is the first element of
    the sorted list alone (nothing when the list is empty). *)
Theorem select_utxos_sufficient self available target :
  target <= sum_amount available ->
  let sorted_utxos := sorted_reverse UTXO.amount available in
  exists selected,
    select_utxos target (self, available) = ((self, available), Ok selected)
    /\ sorted_utxos ≡ₚ available
    /\ StronglySorted (desc UTXO.amount) sorted_utxos
    /\ selected `prefix_of` sorted_utxos
    /\ target <= sum_amount selected
    /\ (forall init last, selected = init ++ [last] ->
          0 < target \/ init <> [] -> sum_amount init < target)
    /\ (target <= 0 -> selected = take 1 sorted_utxos).
Proof.
  intros Hsum sorted_utxos.
  assert (Hperm : sorted_utxos ≡ₚ available) by apply sorted_reverse_perm.
  assert (Hsorted : StronglySorted (desc UTXO.amount) sorted_utxos)
    by apply sorted_reverse_sorted.
  assert (Hrun : forall selected total,
             select_loop sorted_utxos target [] 0 = (selected, total) ->
             total = sum_amount selected ->
             target <= sum_amount selected ->
             select_utxos target (self, available)
             = ((self, available), Ok selected)).
  { intros selected total Hloop -> Hge.
    unfold select_utxos, bind, get. cbn [snd]. fold sorted_utxos. rewrite Hloop.
    destruct (Z.ltb_spec (sum_amount selected) target); [lia|done]. }
  clearbody sorted_utxos.
  destruct (select_loop_spec sorted_utxos target [] 0)
    as (pre & Hloop & Hpre & Hend & Hmin).
  simpl in Hloop.
  assert (Hcover : target <= sum_amount pre).
  { destruct Hend as [[_ Hge]|[-> Hl]]; [lia|].
    rewrite (sum_amount_perm _ _ Hperm) in *.
    destruct Hl as [Hl|Hl]; lia. }
  exists pre. split_and!; try done.
  - by apply (Hrun pre (sum_amount pre)).
  - intros init last -> Hcase.
    destruct init as [|u init]; [|apply (Hmin (u :: init) [last]); done].
    destruct Hcase; [unfold sum_amount; simpl; lia|done].
  - intros Hneg. destruct Hpre as [k Hk]. destruct pre as [|u pre].
    + destruct Hend as [[Hne _]|[<- _]]; done.
    + destruct pre as [|v pre]; [by rewrite Hk|].
      assert (Hu : 0 + sum_amount [u] < target)
        by (apply (Hmin [u] (v :: pre)); done).
      unfold sum_amount in Hu; simpl in Hu.
      rewrite Hk in Hsorted. simpl in Hsorted.
      pose proof (sum_amount_desc_neg u _ Hsorted ltac:(lia)) as Hle.
      rewrite <- (sum_amount_perm _ _ Hperm), Hk in Hsum. simpl in Hsum.
      change (sum_amount (u :: v :: pre ++ k))
        with (UTXO.amount u + (UTXO.amount v + sum_amount (pre ++ k))) in Hle.
      lia.
Qed.

(** The second case of [test_utxo_selection] expects two UTXOs for a target
    of 150000; the largest UTXO, 200000, comes first and covers it alone. *)
Example select_utxos_test_150000 :
  snd (select_utxos 150000 (init, test_utxos))
  = Ok [UTXO.Build (literal "def456abc123") 1 200000 "76a914bb"].
Proof. reflexivity. Qed.

(** The theorem at the second case of [test_utxo_selection]. *)
Lemma select_utxos_sufficient_witness :
  150000 <= sum_amount test_utxos
  /\ exists selected,
       select_utxos 150000 (init, test_utxos) = ((init, test_utxos), Ok selected)
       /\ 150000 <= sum_amount selected.
Proof.
  split; [vm_compute; discriminate|].
  destruct (select_utxos_sufficient init test_utxos 150000) as (sel & Hrun & _ & _ & _ & Hsum & _).
  - vm_compute; discriminate.
  - exists sel. split; [exact Hrun|exact Hsum].
Defined.

(** C2, as stated, fails at the UTXOs of 5 and -10 satoshis with target 3:
    the total, -5, is below the target, yet the call raises nothing and
    returns the UTXO of 5. The source does not check the sign of an amount,
    and the loop stops at the first element, before the negative amount is
    seen. *)
Lemma select_utxos_negative_amount_served :
  ~ selection_insufficient_as_stated init
      [UTXO.Build (literal "aa") 0 5 "76a9"; UTXO.Build (literal "bb") 1 (-10) "76a9"] 3.
Proof.
  intros H. destruct H as (e & Hrun); [reflexivity|].
  apply (f_equal snd) in Hrun. discriminate Hrun.
Qed.

(** C2 (amended): for every list of UTXOs with no negative amount whose
    total is strictly below the target, [select_utxos] raises the
    insufficient-funds [ValueError] whose message carries the total
    available and the target, returns no selection, and leaves the builder
    and the candidate list unchanged. *)
Theorem select_utxos_insufficient self available target :
  Forall (fun u => 0 <= UTXO.amount u) available ->
  sum_amount available < target ->
  select_utxos target (self, available)
  = ((self, available),
     Raise (ValueError ("Insufficient funds: have " ++ str (sum_amount available)
                        ++ ", need " ++ str target))).
Proof.
  intros Hpos Hsum.
  set (sorted_utxos := sorted_reverse UTXO.amount available).
  destruct (select_loop_spec sorted_utxos target [] 0)
    as (pre & Hloop & Hpre & Hend & _).
  simpl in Hloop. rewrite Z.add_0_l in Hloop.
  assert (Hsorted_pos : Forall (fun u => 0 <= UTXO.amount u) sorted_utxos).
  { subst sorted_utxos. by rewrite sorted_reverse_perm. }
  pose proof (sum_amount_prefix_le _ _ Hsorted_pos Hpre) as Hle.
  pose proof (sum_amount_sorted available) as Heq. fold sorted_utxos in Heq.
  assert (Hall : sum_amount pre = sum_amount available).
  { destruct Hend as [[_ Hge]|[Hp _]]; [lia|by rewrite Hp]. }
  unfold select_utxos, bind, get. cbn [snd]. fold sorted_utxos. rewrite Hloop, Hall.
  destruct (Z.ltb_spec (sum_amount available) target); [reflexivity|lia].
Qed.

(** The theorem at the input of [test_insufficient_funds]. *)
Lemma select_utxos_insufficient_witness :
  select_utxos 1000000 (init, test_utxos)
  = ((init, test_utxos),
     Raise (ValueError "Insufficient funds: have 300000, need 1000000")).
Proof.
  apply (select_utxos_insufficient init test_utxos 1000000).
  - repeat constructor; vm_compute; discriminate.
  - vm_compute; reflexivity.
Defined.

(** What the call returns at the UTXOs of 5 and -10 satoshis with target 3. *)
Example select_utxos_negative_amount :
  sum_amount [UTXO.Build (literal "aa") 0 5 "76a9"; UTXO.Build (literal "bb") 1 (-10) "76a9"] < 3
  /\ snd (select_utxos 3 (init, [UTXO.Build (literal "aa") 0 5 "76a9";
                                  UTXO.Build (literal "bb") 1 (-10) "76a9"]))
     = Ok [UTXO.Build (literal "aa") 0 5 "76a9"].
Proof. split; reflexivity. Qed.

(** ** Fee *)

(** C5: for every builder state [calculate_fee] returns
    (10 + 68 * input_count + 34 * output_count) * fee_rate, raises nothing
    and leaves the builder as it is; with one input, one output and a fee
    rate of 1 the fee is 112. *)
Theorem calculate_fee_formula self :
  calculate_fee self
  = (self, Ok ((10 + 68 * Z.of_nat (length (inputs self))
                   + 34 * Z.of_nat (length (outputs self))) * fee_rate self))
  /\ (length (inputs self) = 1%nat -> length (outputs self) = 1%nat ->
      fee_rate self = 1 -> calculate_fee self = (self, Ok 112)).
Proof.
  unfold calculate_fee, bind, get, ret. split.
  - do 2 f_equal. lia.
  - intros -> -> ->. reflexivity.
Qed.

(** The formula at the builder of [test_fee_calculation]. *)
Lemma calculate_fee_formula_witness :
  calculate_fee test_builder = (test_builder, Ok 112).
Proof.
  apply (proj2 (calculate_fee_formula test_builder)); reflexivity.
Defined.

(** ** Change *)

Lemma truthy_str_some o :
  truthy_str o = true -> exists addr, o = Some addr /\ addr <> EmptyString.
Proof. destruct o as [[|c s]|]; simpl; try done. intros _. by eexists. Qed.

(** C6: with change = input_total - output_total - fee (of either sign),
    [add_change_output] appends exactly one output, of that amount and to the
    change address, when change >= 546 and a change address is configured,
    and otherwise leaves the builder as it is; it never raises, and never
    touches the inputs, the fee rate or the change address.  So the outputs
    change if and only if the condition holds.  (100000, 60000, 1000) with an
    address appends one output of 39000; (1000, 500, 400) appends nothing. *)
Theorem add_change_output_policy self input_amount output_amount fee :
  let change_amount := input_amount - output_amount - fee in
  let after := fst (add_change_output input_amount output_amount fee self) in
  snd (add_change_output input_amount output_amount fee self) = Ok tt
  /\ inputs after = inputs self
  /\ fee_rate after = fee_rate self
  /\ change_address after = change_address self
  /\ (546 <= change_amount /\ change_configured self ->
      exists addr, change_address self = Some addr
        /\ outputs after = outputs self ++ [TransactionOutput.Build change_amount addr])
  /\ (~ (546 <= change_amount /\ change_configured self) -> after = self)
  /\ (outputs after <> outputs self <-> 546 <= change_amount /\ change_configured self).
Proof.
  intros change_amount after. subst after.
  unfold add_change_output, bind, get, change_configured. fold change_amount.
  destruct (Z.geb_spec change_amount 546) as [Hge|Hlt];
    destruct (truthy_str (change_address self)) eqn:Haddr; cbn [andb].
  - destruct (truthy_str_some _ Haddr) as (addr & Heq & _). rewrite Heq.
    unfold add_output, bind, get, put, set_outputs. simpl.
    split_and!; try done.
    + intros _. by exists addr.
    + intros []. split; [lia|done].
    + split; [intros _; split; [lia|done]|].
      intros _ Heq'. apply (f_equal length) in Heq'.
      rewrite length_app in Heq'. simpl in Heq'. lia.
  - simpl; split_and!; try done; try (intros [? ?]; (lia || done));
      split; [done|intros [? ?]; (lia || done)].
  - simpl; split_and!; try done; try (intros [? ?]; (lia || done));
      split; [done|intros [? ?]; (lia || done)].
  - simpl; split_and!; try done; try (intros [? ?]; (lia || done));
      split; [done|intros [? ?]; (lia || done)].
Qed.

(** The two cases of the test suite: [test_change_output] and
    [test_dust_threshold]. *)
Lemma add_change_output_policy_witness :
  outputs (fst (add_change_output 100000 60000 1000 (set_outputs [] test_builder)))
  = [TransactionOutput.Build 39000 "76a914cc"]
  /\ fst (add_change_output 1000 500 400 (set_outputs [] test_builder))
     = set_outputs [] test_builder.
Proof.
  pose proof (add_change_output_policy (set_outputs [] test_builder) 100000 60000 1000)
    as (_ & _ & _ & _ & Hadd & _).
  pose proof (add_change_output_policy (set_outputs [] test_builder) 1000 500 400)
    as (_ & _ & _ & _ & _ & Hskip & _).
  split.
  - destruct Hadd as (addr & Haddr & Hout).
    + split; [vm_compute; discriminate|reflexivity].
    + rewrite Hout. injection Haddr as <-. reflexivity.
  - apply Hskip. intros [Hge _]. vm_compute in Hge. by apply Hge.
Defined.

(** ** Bytes and integers *)

Lemma low_byte_val n : 0 <= n < 256 -> byte_val (low_byte n) = n.
Proof.
  intros Hn. unfold low_byte, byte_val.
  rewrite Z.mod_small by lia.
  destruct (Byte.of_N (Z.to_N n)) as [b|] eqn:Hb.
  - apply Byte.to_of_N in Hb. rewrite Hb. lia.
  - apply Byte.of_N_None_iff in Hb. lia.
Qed.

Lemma to_bytes1_small n : 0 <= n <= 255 -> to_bytes1 n = Ok [low_byte n].
Proof.
  intros Hn. unfold to_bytes1, low_byte.
  destruct (Z.ltb_spec n 0); [lia|]. rewrite Z.mod_small by lia.
  destruct (Byte.of_N (Z.to_N n)) as [b|] eqn:Hb; [done|].
  apply Byte.of_N_None_iff in Hb. lia.
Qed.

Lemma to_bytes1_big n : 255 < n -> to_bytes1 n = Raise OverflowError.
Proof.
  intros Hn. unfold to_bytes1. destruct (Z.ltb_spec n 0); [lia|].
  destruct (Byte.of_N (Z.to_N n)) as [b|] eqn:Hb; [|done].
  pose proof (Byte.to_N_bounded b). apply Byte.to_of_N in Hb. lia.
Qed.

Lemma le_bytes_length w n : length (le_bytes w n) = w.
Proof. revert n. induction w as [|w IH]; intros n; simpl; [done|]. by rewrite IH. Qed.

Lemma be_bytes_length w n : length (be_bytes w n) = w.
Proof. induction w as [|w IH]; simpl; [done|]. by rewrite IH. Qed.

(** [le_bytes] writes the number: reading the bytes back gives it. *)
Lemma le_int_le_bytes w n :
  0 <= n < 256 ^ Z.of_nat w -> le_int (le_bytes w n) = n.
Proof.
  revert n. induction w as [|w IH]; intros n Hn.
  - simpl in *. lia.
  - cbn [le_bytes le_int foldr]. fold (le_int (le_bytes w (n / 256))).
    rewrite Nat2Z.inj_succ, Z.pow_succ_r in Hn by lia.
    rewrite IH.
    + unfold low_byte, byte_val.
      pose proof (Z.mod_pos_bound n 256 ltac:(lia)) as Hm.
      destruct (Byte.of_N (Z.to_N (n mod 256))) as [b|] eqn:Hb.
      * apply Byte.to_of_N in Hb. rewrite Hb, Z2N.id by lia.
        pose proof (Z.div_mod n 256 ltac:(lia)). lia.
      * apply Byte.of_N_None_iff in Hb. lia.
    + split; [apply Z.div_pos; lia|]. apply Z.div_lt_upper_bound; lia.
Qed.

Lemma sha256_digest_length msg : length (SHA256.digest msg) = 32%nat.
Proof. unfold SHA256.digest. rewrite !length_app, !be_bytes_length. done. Qed.

Lemma hex_digit_lower n : lower_hex (hex_digit n).
Proof.
  unfold lower_hex, hex_digit.
  repeat match goal with
         | |- context [match ?x with _ => _ end] => destruct x
         end; simpl; tauto.
Qed.

Lemma hex_lower b : Forall lower_hex (list_ascii_of_string (hex b)).
Proof.
  induction b as [|x b IH]; simpl; [constructor|].
  constructor; [apply hex_digit_lower|].
  constructor; [apply hex_digit_lower|exact IH].
Qed.

Lemma hex_length b : String.length (hex b) = (2 * length b)%nat.
Proof. induction b as [|x b IH]; simpl; [done|]. rewrite IH. lia. Qed.

Lemma index_nonneg n i :
  0 <= i < Z.of_nat n -> index n i = Some (Z.to_nat i).
Proof.
  intros Hi. unfold index.
  destruct (Z.leb_spec 0 i); [|lia]. destruct (Z.ltb_spec i (Z.of_nat n)); [done|lia].
Qed.

Lemma index_negative n i :
  - Z.of_nat n <= i < 0 -> index n i = Some (Z.to_nat (Z.of_nat n + i)).
Proof.
  intros Hi. unfold index.
  destruct (Z.leb_spec 0 i); [lia|]. destruct (Z.leb_spec (- Z.of_nat n) i); [done|lia].
Qed.

Lemma index_outside n i :
  i < - Z.of_nat n \/ Z.of_nat n <= i -> index n i = None.
Proof.
  intros Hi. unfold index.
  destruct (Z.leb_spec 0 i).
  - destruct (Z.ltb_spec i (Z.of_nat n)); [lia|done].
  - destruct (Z.leb_spec (- Z.of_nat n) i); [lia|done].
Qed.

Lemma getitem_resolved {A} (l : list A) i k x :
  index (length l) i = Some k -> l !! k = Some x -> getitem l i = Ok x.
Proof. unfold getitem. by intros -> ->. Qed.

Lemma getitem_outside {A} (l : list A) i :
  index (length l) i = None -> getitem l i = Raise IndexError.
Proof. unfold getitem. by intros ->. Qed.

(** ** Assembly *)

(** C8: for every builder state [build] raises nothing, leaves the builder as
    it is, and returns a record with version 1 and locktime 0, one input
    record per input in the order of the list (transaction id, output index
    and sequence of the input; the script in lowercase hexadecimal, the empty
    string for an input that is not signed), and one output record per
    output in the order of the list (amount and script); two calls in a row
    return the same record; an input or output added by [add_input] or
    [add_output] comes last in the record of the next call. *)
Theorem build_reflects_state self :
  exists tx,
    build self = (self, Ok tx)
    /\ Transaction.version tx = 1
    /\ Transaction.locktime tx = 0
    /\ length (Transaction.inputs tx) = length (inputs self)
    /\ length (Transaction.outputs tx) = length (outputs self)
    /\ (forall k input, inputs self !! k = Some input ->
          exists r, Transaction.inputs tx !! k = Some r
            /\ Transaction.txid r = TransactionInput.txid input
            /\ Transaction.vout r = TransactionInput.vout input
            /\ Transaction.sequence r = TransactionInput.sequence input
            /\ (TransactionInput.script_sig input = None ->
                Transaction.script_sig r = EmptyString)
            /\ (forall s, TransactionInput.script_sig input = Some s ->
                  Transaction.script_sig r = hex s
                  /\ Forall lower_hex (list_ascii_of_string (Transaction.script_sig r))
                  /\ String.length (Transaction.script_sig r) = (2 * length s)%nat))
    /\ (forall k output, outputs self !! k = Some output ->
          Transaction.outputs tx !! k
          = Some (Transaction.Output (TransactionOutput.amount output)
                                     (TransactionOutput.script_pubkey output)))
    /\ (first <- build ;; second <- build ;; ret (first, second)) self
       = (self, Ok (tx, tx))
    /\ (forall utxo,
          let self' := fst (add_input utxo self) in
          exists tx', build self' = (self', Ok tx')
            /\ Transaction.inputs tx'
               = Transaction.inputs tx
                 ++ [Transaction.Input (UTXO.txid utxo) (UTXO.vout utxo)
                       EmptyString 0xffffffff]
            /\ Transaction.outputs tx' = Transaction.outputs tx)
    /\ (forall amount script_pubkey,
          let self' := fst (add_output amount script_pubkey self) in
          exists tx', build self' = (self', Ok tx')
            /\ Transaction.inputs tx' = Transaction.inputs tx
            /\ Transaction.outputs tx'
               = Transaction.outputs tx ++ [Transaction.Output amount script_pubkey]).
Proof.
  eexists. split; [reflexivity|]. cbn [Transaction.version Transaction.locktime
    Transaction.inputs Transaction.outputs].
  split_and!; try done.
  5: { intros utxo. eexists. split; [reflexivity|].
       cbn [Transaction.inputs Transaction.outputs].
       unfold add_input, bind, get, put. cbn [fst inputs outputs set_inputs].
       by rewrite map_app. }
  5: { intros amount script_pubkey. eexists. split; [reflexivity|].
       cbn [Transaction.inputs Transaction.outputs].
       unfold add_output, bind, get, put. cbn [fst inputs outputs set_outputs].
       by rewrite map_app. }
  - by rewrite length_map.
  - by rewrite length_map.
  - intros k input Hk. exists (build_input input).
    rewrite list_lookup_fmap, Hk. split_and!; try done.
    + unfold build_input. simpl. by intros ->.
    + intros s Hs.
      assert (Heq : Transaction.script_sig (build_input input) = hex s).
      { unfold build_input. simpl. rewrite Hs. by destruct s. }
      rewrite Heq. split_and!; [done|apply hex_lower|apply hex_length].
  - intros k output Hk. by rewrite list_lookup_fmap, Hk.
Qed.

(** ** Signature hash *)

Lemma struct_pack_I_one : struct_pack_I 1 = Ok [x01; x00; x00; x00].
Proof. reflexivity. Qed.

Lemma encode_raises s e : encode s = Raise e -> e = UnicodeEncodeError.
Proof. unfold encode. destruct (forallb scalar_value s); [done|by intros [= <-]]. Qed.

Lemma encode_ok_inv s b :
  encode s = Ok b -> forallb scalar_value s = true /\ b = utf8 s.
Proof. unfold encode. destruct (forallb scalar_value s); [by intros [= <-]|done]. Qed.

Lemma getitem_raises {A} (l : list A) i e :
  getitem l i = Raise e -> e = IndexError.
Proof.
  unfold getitem. destruct (index (length l) i) as [k|]; [|by intros [= <-]].
  destruct (l !! k); [done|by intros [= <-]].
Qed.

(** [create_signature_hash] leaves the builder as it is and comes to
    [signature_hash_outcome]; [sig_hash_type] plays no part. *)
Lemma create_signature_hash_outcome self i t :
  create_signature_hash i t self = (self, signature_hash_outcome self i).
Proof.
  unfold create_signature_hash, signature_hash_outcome, bind, get, lift, ret.
  rewrite struct_pack_I_one.
  destruct (Z.ltb_spec 255 (Z.of_nat (length (inputs self)))) as [Hn|Hn].
  { by rewrite to_bytes1_big. }
  rewrite to_bytes1_small by lia.
  destruct (getitem (inputs self) i) as [input|e] eqn:Hget;
    [|by rewrite (getitem_raises _ _ _ Hget)].
  destruct (encode (TransactionInput.txid input)) as [txid|e] eqn:Htxid;
    [|by rewrite (encode_raises _ _ Htxid)].
  unfold struct_pack_I.
  destruct ((0 <=? TransactionInput.vout input)
            && (TransactionInput.vout input <? 2 ^ 32)); [|done].
  destruct (Z.ltb_spec 255 (Z.of_nat (length (outputs self)))) as [Hm|Hm].
  { by rewrite to_bytes1_big. }
  rewrite to_bytes1_small by lia. reflexivity.
Qed.

Lemma signature_hash_outcome_ok self i input txid :
  getitem (inputs self) i = Ok input ->
  encode (TransactionInput.txid input) = Ok txid ->
  (length (inputs self) <= 255)%nat -> (length (outputs self) <= 255)%nat ->
  0 <= TransactionInput.vout input < 2 ^ 32 ->
  signature_hash_outcome self i
  = Ok (double_sha256 (data_to_sign self txid (TransactionInput.vout input))).
Proof.
  intros Hget Htxid Hn Hm Hv. unfold signature_hash_outcome. rewrite Hget, Htxid.
  destruct (Z.ltb_spec 255 (Z.of_nat (length (inputs self)))); [lia|].
  destruct (Z.ltb_spec 255 (Z.of_nat (length (outputs self)))); [lia|].
  destruct (Z.leb_spec 0 (TransactionInput.vout input)); [|lia].
  destruct (Z.ltb_spec (TransactionInput.vout input) (2 ^ 32)); [done|lia].
Qed.

(** With a count above 255 the outcome is an exception, whatever the index. *)
Lemma signature_hash_outcome_overflow self i :
  (255 < length (inputs self))%nat \/ (255 < length (outputs self))%nat ->
  exists e, signature_hash_outcome self i = Raise e
    /\ ((255 < length (inputs self))%nat -> e = OverflowError)
    /\ (forall input txid, getitem (inputs self) i = Ok input ->
          encode (TransactionInput.txid input) = Ok txid ->
          0 <= TransactionInput.vout input < 2 ^ 32 -> e = OverflowError).
Proof.
  intros Hcount. unfold signature_hash_outcome.
  destruct (Z.ltb_spec 255 (Z.of_nat (length (inputs self)))) as [Hn|Hn].
  { exists OverflowError. done. }
  destruct (getitem (inputs self) i) as [input|e] eqn:Hget.
  - destruct (encode (TransactionInput.txid input)) as [txid|e] eqn:Htxid.
    + destruct (Z.leb_spec 0 (TransactionInput.vout input));
        destruct (Z.ltb_spec (TransactionInput.vout input) (2 ^ 32)); cbn [andb].
      * destruct (Z.ltb_spec 255 (Z.of_nat (length (outputs self)))); [|lia].
        exists OverflowError. done.
      * exists StructError. split_and!; [done|lia|].
        intros ? ? [= <-]. lia.
      * exists StructError. split_and!; [done|lia|].
        intros ? ? [= <-]. lia.
      * exists StructError. split_and!; [done|lia|].
        intros ? ? [= <-]. lia.
    + exists UnicodeEncodeError. split_and!; [done|lia|].
      intros ? ? [= <-]. congruence.
  - exists IndexError. split_and!; [done|lia|done].
Qed.

(** The builders [with_inputs] makes. *)
Lemma with_inputs_inputs n utxo :
  inputs (with_inputs n utxo) = repeat (TransactionInput.init utxo) n
  /\ outputs (with_inputs n utxo) = [].
Proof.
  induction n as [|n [IHi IHo]]; [done|].
  unfold with_inputs in *. rewrite Nat.iter_succ.
  set (b := Nat.iter n _ init) in *.
  unfold add_input, bind, get, put. cbn [fst set_inputs inputs outputs].
  rewrite IHi, IHo. split; [|done].
  cbn [repeat]. by rewrite repeat_cons.
Qed.

(** C3, as stated, fails at a builder with 256 inputs: the input count does
    not fit one byte, the call raises [OverflowError] and there is no
    digest. *)
Lemma create_signature_hash_256_inputs :
  ~ signature_hash_as_stated (with_inputs 256 utxo0) 0 SIGHASH_ALL.
Proof.
  intros H. destruct H as (input & txid & d & _ & _ & Hrun & _).
  - rewrite (proj1 (with_inputs_inputs 256 utxo0)), repeat_length. lia.
  - rewrite create_signature_hash_outcome in Hrun.
    apply (f_equal snd) in Hrun. cbn [snd] in Hrun.
    destruct (signature_hash_outcome_overflow (with_inputs 256 utxo0) 0)
      as (e & He & _).
    + left. rewrite (proj1 (with_inputs_inputs 256 utxo0)), repeat_length. lia.
    + congruence.
Qed.

(** C3 (amended): for every builder with at most 255 inputs and at most 255
    outputs and every index that selects an input whose transaction id can
    be encoded (it holds no surrogate) and whose output index is in
    [0, 2^32), [create_signature_hash] returns SHA-256 applied twice to the
    concatenation of the bytes 01 00 00 00, one byte holding the input
    count, the UTF-8 bytes of the input's transaction id, four little-endian
    bytes holding its output index, and one byte holding the output count;
    the digest has 32 bytes, the builder is left as it is, and two calls in
    a row return the same digest. *)
Theorem create_signature_hash_digest self i t input txid :
  getitem (inputs self) i = Ok input ->
  encode (TransactionInput.txid input) = Ok txid ->
  (length (inputs self) <= 255)%nat ->
  (length (outputs self) <= 255)%nat ->
  0 <= TransactionInput.vout input < 2 ^ 32 ->
  let d := SHA256.digest (SHA256.digest
             ([x01; x00; x00; x00]
              ++ [low_byte (Z.of_nat (length (inputs self)))]
              ++ txid
              ++ le_bytes 4 (TransactionInput.vout input)
              ++ [low_byte (Z.of_nat (length (outputs self)))])) in
  create_signature_hash i t self = (self, Ok d)
  /\ txid = utf8 (TransactionInput.txid input)
  /\ byte_val (low_byte (Z.of_nat (length (inputs self))))
     = Z.of_nat (length (inputs self))
  /\ le_int (le_bytes 4 (TransactionInput.vout input)) = TransactionInput.vout input
  /\ byte_val (low_byte (Z.of_nat (length (outputs self))))
     = Z.of_nat (length (outputs self))
  /\ length d = 32%nat
  /\ (first <- create_signature_hash i t ;;
      second <- create_signature_hash i t ;;
      ret (first, second)) self = (self, Ok (d, d)).
Proof.
  intros Hget Htxid Hn Hm Hv d.
  assert (Hrun : create_signature_hash i t self = (self, Ok d)).
  { rewrite create_signature_hash_outcome.
    by rewrite (signature_hash_outcome_ok _ _ _ _ Hget Htxid Hn Hm Hv). }
  split_and!.
  - exact Hrun.
  - by apply encode_ok_inv in Htxid as [_ ->].
  - apply low_byte_val. lia.
  - apply le_int_le_bytes. change (256 ^ Z.of_nat 4) with (2 ^ 32). lia.
  - apply low_byte_val. lia.
  - apply sha256_digest_length.
  - unfold bind. rewrite Hrun. unfold bind. by rewrite Hrun.
Qed.

(** The digest of the one input of [test_transaction_signing]. *)
Lemma create_signature_hash_digest_witness :
  fst (create_signature_hash 0 SIGHASH_ALL test_builder) = test_builder
  /\ option_map hex
       (match snd (create_signature_hash 0 SIGHASH_ALL test_builder) with
        | Ok d => Some d
        | Raise _ => None
        end)
     = Some "57625900b427f53044c5144be86f20d3b16073b6a7352b6d7f5aaa8f00627bbd"%string.
Proof.
  destruct (create_signature_hash_digest test_builder 0 SIGHASH_ALL
              (TransactionInput.init utxo0) txid0) as (Hrun & _).
  - reflexivity.
  - reflexivity.
  - simpl; lia.
  - simpl; lia.
  - simpl; lia.
  - rewrite Hrun. split; [reflexivity|]. vm_compute. reflexivity.
Defined.

(** A transaction id that holds a lone surrogate cannot be encoded: the call
    raises [UnicodeEncodeError], after the subscript and before the output
    index and the output count are looked at. *)
Example create_signature_hash_lone_surrogate :
  create_signature_hash 0 SIGHASH_ALL (with_inputs 1 surrogate_utxo)
  = (with_inputs 1 surrogate_utxo, Raise UnicodeEncodeError).
Proof. reflexivity. Qed.

(** C10, as stated, fails at a builder with one input whose output index is
    2^32: the counts fit one byte, yet [struct.pack] refuses the output
    index and the call raises. *)
Lemma create_signature_hash_wide_vout :
  ~ signature_hash_total_as_stated wide_vout_builder.
Proof.
  intros H. destruct (H ltac:(simpl; lia) ltac:(simpl; lia) 0 SIGHASH_ALL) as [d Hd].
  - simpl. lia.
  - rewrite create_signature_hash_outcome in Hd.
    apply (f_equal snd) in Hd. vm_compute in Hd. discriminate Hd.
Qed.

(** ** Signing *)

Lemma bytes_of_int_ok t : 0 <= t < 256 -> bytes_of_int t = Ok [low_byte t].
Proof.
  intros Ht. unfold bytes_of_int.
  destruct (Z.leb_spec 0 t), (Z.ltb_spec t 256); simpl; (done || lia).
Qed.

Lemma signed_at_lookup k s self input :
  inputs self !! k = Some input ->
  inputs (signed_at k s self) !! k = Some (TransactionInput.set_script_sig s input).
Proof. intros Hk. simpl. by rewrite list_lookup_alter_eq, Hk. Qed.

Lemma signed_at_lookup_ne k j s self :
  j <> k -> inputs (signed_at k s self) !! j = inputs self !! j.
Proof. intros Hj. simpl. by rewrite list_lookup_alter_ne. Qed.

Lemma signed_at_length k s self :
  length (inputs (signed_at k s self)) = length (inputs self).
Proof. simpl. apply length_alter. Qed.

(** Signing again replaces the script. *)
Lemma signed_at_twice k s s' self :
  signed_at k s' (signed_at k s self) = signed_at k s' self.
Proof.
  unfold signed_at, set_inputs. simpl. f_equal.
  rewrite list_alter_alter_eq. apply list_eq. intros j.
  rewrite !list_lookup_alter. destruct (decide (k = j)); [|done].
  by destruct (inputs self !! k).
Qed.

(** The bytes to sign do not depend on any script. *)
Lemma data_to_sign_signed_at k s self txid vout :
  data_to_sign (signed_at k s self) txid vout = data_to_sign self txid vout.
Proof. unfold data_to_sign. by rewrite signed_at_length. Qed.

Section Signing.
Context {E : ECDSA}.

(** An exception of the signature hash is the exception of [sign_input],
    and nothing is written. *)
Lemma sign_input_hash_raises self i key t entropy e :
  signature_hash_outcome self i = Raise e ->
  sign_input i key t entropy self = (self, Raise e).
Proof.
  intros He. unfold sign_input, bind.
  by rewrite create_signature_hash_outcome, He.
Qed.

Context (sizes : ECDSA_sizes E).

(** The successful run: the subscript resolves to slot [k], the digest
    exists, the library accepts the key and signs. *)
Lemma sign_input_resolved self i k input txid key sk t entropy der :
  index (length (inputs self)) i = Some k ->
  inputs self !! k = Some input ->
  encode (TransactionInput.txid input) = Ok txid ->
  (length (inputs self) <= 255)%nat ->
  (length (outputs self) <= 255)%nat ->
  0 <= TransactionInput.vout input < 2 ^ 32 ->
  0 <= t < 256 ->
  from_string key = Ok sk ->
  sign_digest sk (double_sha256 (data_to_sign self txid (TransactionInput.vout input))) entropy = Ok der ->
  sign_input i key t entropy self
  = (signed_at k (unlocking_script der t (verifying_key_to_string sk)) self, Ok tt).
Proof.
  intros Hi Hk Htxid Hn Hm Hv Ht Hkey Hsig.
  pose proof (getitem_resolved _ _ _ _ Hi Hk) as Hget.
  unfold sign_input, bind.
  rewrite create_signature_hash_outcome,
    (signature_hash_outcome_ok _ _ _ _ Hget Htxid Hn Hm Hv).
  unfold lift. rewrite Hkey, Hsig, (bytes_of_int_ok _ Ht).
  pose proof (der_length E sizes _ _ _ _ Hsig) as Hder.
  rewrite to_bytes1_small by (rewrite length_app; simpl; lia).
  rewrite to_bytes1_small by (rewrite (pubkey_length E sizes); lia).
  unfold set_input_script_sig, bind, get, put. by rewrite Hi, Hk.
Qed.

(** Both length prefixes of the script hold the lengths they stand for. *)
Lemma unlocking_script_prefixes sk digest entropy der t :
  sign_digest sk digest entropy = Ok der ->
  let signature := der ++ [low_byte t] in
  let public_key := verifying_key_to_string sk in
  byte_val (low_byte (Z.of_nat (length signature))) = Z.of_nat (length signature)
  /\ byte_val (low_byte (Z.of_nat (length public_key))) = Z.of_nat (length public_key).
Proof.
  intros Hsig signature public_key.
  pose proof (der_length E sizes _ _ _ _ Hsig) as Hder.
  split; apply low_byte_val.
  - subst signature. rewrite length_app. simpl. lia.
  - subst public_key. rewrite (pubkey_length E sizes). lia.
Qed.

End Signing.

(** ** The secp256k1 instance has the sizes of [ECDSA_sizes] *)

Lemma order_pos : 0 < Secp256k1.order.
Proof. reflexivity. Qed.

Lemma order_lt : Secp256k1.order < 2 ^ 256.
Proof. reflexivity. Qed.

Lemma byte_length_le n :
  0 <= n < 2 ^ 256 -> (1 <= Secp256k1.byte_length n <= 32)%nat.
Proof.
  intros Hn. unfold Secp256k1.byte_length.
  assert (Hlog : 0 <= Z.log2 n < 256).
  { split; [apply Z.log2_nonneg|].
    destruct (Z.eq_dec n 0) as [->|Hne]; [done|].
    apply Z.log2_lt_pow2; lia. }
  assert (0 <= Z.log2 n / 8 < 32).
  { split; [apply Z.div_pos; lia|apply Z.div_lt_upper_bound; lia]. }
  lia.
Qed.

Lemma encode_length_short l :
  (l < 128)%nat -> length (Secp256k1.encode_length l) = 1%nat.
Proof.
  intros Hl. unfold Secp256k1.encode_length.
  destruct (Nat.ltb_spec l 128); [done|lia].
Qed.

Lemma encode_integer_length r :
  0 <= r < 2 ^ 256 -> (length (Secp256k1.encode_integer r) <= 35)%nat.
Proof.
  intros Hr. unfold Secp256k1.encode_integer.
  pose proof (byte_length_le r Hr) as Hlen.
  pose proof (be_bytes_length (Secp256k1.byte_length r) r) as Hs.
  destruct (be_bytes (Secp256k1.byte_length r) r) as [|b s]; [simpl; lia|].
  simpl in Hs.
  destruct (byte_val b <=? 127); cbn [length]; rewrite length_app,
    encode_length_short; simpl; lia.
Qed.

Lemma sign_number_range d z k r s :
  Secp256k1.sign_number d z k = Ok (r, s) ->
  0 <= r < 2 ^ 256 /\ 0 <= s < 2 ^ 256.
Proof.
  unfold Secp256k1.sign_number.
  destruct (Secp256k1.mul _ _) as [[x y]|]; [|done].
  destruct (_ =? 0); [done|]. destruct (_ =? 0); [done|].
  intros [= <- <-].
  pose proof order_pos. pose proof order_lt.
  split; match goal with
         | |- _ <= ?a mod ?m < _ =>
             pose proof (Z.mod_pos_bound a m ltac:(assumption)); lia
         end.
Qed.

Lemma sigencode_der_length r s :
  0 <= r < 2 ^ 256 -> 0 <= s < 2 ^ 256 ->
  (length (Secp256k1.sigencode_der r s) <= 72)%nat.
Proof.
  intros Hr Hs. unfold Secp256k1.sigencode_der, Secp256k1.encode_sequence.
  pose proof (encode_integer_length r Hr).
  pose proof (encode_integer_length s Hs).
  cbn [concat length]. rewrite app_nil_r, length_app, encode_length_short;
    rewrite length_app; lia.
Qed.

Lemma secp256k1_sizes : ECDSA_sizes secp256k1.
Proof.
  split.
  - intros sk digest k der. cbn [sign_digest secp256k1]. unfold Secp256k1.sign_digest.
    destruct (_ <? _)%nat; [done|].
    destruct (Secp256k1.sign_number _ _ _) as [[r s]|e] eqn:Hrs; [|done].
    intros [= <-]. apply sign_number_range in Hrs as [Hr Hs].
    by apply sigencode_der_length.
  - intros sk. cbn [verifying_key_to_string secp256k1].
    unfold Secp256k1.verifying_key_to_string.
    by rewrite length_app, !be_bytes_length.
Qed.

Lemma from_string_key7 : from_string key7 = Ok sk7.
Proof. vm_compute. reflexivity. Qed.

Lemma sign_digest_der7 :
  sign_digest sk7 (double_sha256 (data_to_sign test_builder txid0 0)) nonce5
  = Ok der7.
Proof. vm_compute. reflexivity. Qed.

Lemma sign_digest_der_second :
  sign_digest sk7 (double_sha256 (data_to_sign two_input_builder txid1 1)) nonce5
  = Ok der_second.
Proof. vm_compute. reflexivity. Qed.

(** ** Claims about [sign_input] *)

(** C4, as stated, fails at a builder with 256 inputs: index 0 is valid and
    the key is accepted, yet the signature hash raises [OverflowError] and
    no script is set. *)
Lemma sign_input_256_inputs :
  ~ sign_input_as_stated (with_inputs 256 utxo0) 0 key7 nonce5.
Proof.
  pose proof (with_inputs_inputs 256 utxo0) as [Hin _].
  intros H. destruct H as (script & Hrun).
  - rewrite Hin, repeat_length. lia.
  - rewrite Hin, repeat_length. lia.
  - exists sk7. exact from_string_key7.
  - destruct (signature_hash_outcome_overflow (with_inputs 256 utxo0) 0)
      as (e & He & _).
    + left. rewrite Hin, repeat_length. lia.
    + rewrite (sign_input_hash_raises _ _ _ _ _ _ He) in Hrun.
      apply (f_equal snd) in Hrun. discriminate Hrun.
Qed.

(** C9, as stated, fails at the same builder with index -1. *)
Lemma sign_input_negative_256_inputs :
  ~ sign_input_negative_as_stated (with_inputs 256 utxo0) (-1) key7 nonce5.
Proof.
  pose proof (with_inputs_inputs 256 utxo0) as [Hin _].
  intros H. destruct H as (script & Hrun).
  - rewrite Hin, repeat_length. lia.
  - rewrite Hin, repeat_length. lia.
  - exists sk7. exact from_string_key7.
  - destruct (signature_hash_outcome_overflow (with_inputs 256 utxo0) (-1))
      as (e & He & _).
    + left. rewrite Hin, repeat_length. lia.
    + rewrite (sign_input_hash_raises _ _ _ _ _ _ He) in Hrun.
      apply (f_equal snd) in Hrun. discriminate Hrun.
Qed.

(** C7, as stated, fails at index -1 on a builder with one input: the index
    is outside [0, n), yet the call signs the last input and raises nothing. *)
Lemma sign_input_minus_one_accepted :
  ~ sign_input_out_of_range_as_stated test_builder (-1) key7 nonce5.
Proof.
  intros H. specialize (H ltac:(lia)).
  rewrite (sign_input_resolved secp256k1_sizes test_builder (-1) 0
             (TransactionInput.init utxo0) txid0 key7 sk7 SIGHASH_ALL nonce5 der7) in H.
  - apply (f_equal snd) in H. discriminate H.
  - reflexivity.
  - reflexivity.
  - reflexivity.
  - simpl; lia.
  - simpl; lia.
  - simpl; lia.
  - unfold SIGHASH_ALL; lia.
  - exact from_string_key7.
  - exact sign_digest_der7.
Qed.

Section SigningClaims.
Context {E : ECDSA} (sizes : ECDSA_sizes E).

(** What a successful [sign_input] on slot [k] leaves behind. *)
Lemma sign_input_effect self i k input txid key sk t entropy der :
  index (length (inputs self)) i = Some k ->
  inputs self !! k = Some input ->
  encode (TransactionInput.txid input) = Ok txid ->
  (length (inputs self) <= 255)%nat ->
  (length (outputs self) <= 255)%nat ->
  0 <= TransactionInput.vout input < 2 ^ 32 ->
  0 <= t < 256 ->
  from_string key = Ok sk ->
  sign_digest sk (double_sha256 (data_to_sign self txid (TransactionInput.vout input))) entropy = Ok der ->
  let signature := der ++ [low_byte t] in
  let public_key := verifying_key_to_string sk in
  let script :=
    [low_byte (Z.of_nat (length signature))] ++ signature
    ++ [low_byte (Z.of_nat (length public_key))] ++ public_key in
  let after := fst (sign_input i key t entropy self) in
  snd (sign_input i key t entropy self) = Ok tt
  /\ inputs after !! k = Some (TransactionInput.set_script_sig script input)
  /\ byte_val (low_byte (Z.of_nat (length signature))) = Z.of_nat (length signature)
  /\ byte_val (low_byte (Z.of_nat (length public_key))) = Z.of_nat (length public_key)
  /\ (forall j, j <> k -> inputs after !! j = inputs self !! j)
  /\ length (inputs after) = length (inputs self)
  /\ outputs after = outputs self
  /\ fee_rate after = fee_rate self
  /\ change_address after = change_address self
  /\ (forall entropy' der',
        sign_digest sk (double_sha256 (data_to_sign self txid (TransactionInput.vout input))) entropy' = Ok der' ->
        let script' := unlocking_script der' t public_key in
        sign_input i key t entropy' after = (signed_at k script' self, Ok tt)
        /\ inputs (signed_at k script' self) !! k
           = Some (TransactionInput.set_script_sig script' input)).
Proof.
  intros Hi Hk Htxid Hn Hm Hv Ht Hkey Hsig signature public_key script after.
  pose proof (sign_input_resolved sizes _ _ _ _ _ _ _ _ _ _
                Hi Hk Htxid Hn Hm Hv Ht Hkey Hsig) as Hrun.
  fold public_key in Hrun. change (unlocking_script der t public_key) with script in Hrun.
  subst after. rewrite Hrun. cbn [fst snd].
  destruct (unlocking_script_prefixes sizes _ _ _ _ t Hsig) as [Hp1 Hp2].
  split_and!; try done.
  - by apply signed_at_lookup.
  - intros j Hj. by apply signed_at_lookup_ne.
  - apply signed_at_length.
  - intros entropy' der' Hsig'.
    set (script' := unlocking_script der' t public_key).
    split; [|by apply signed_at_lookup].
    pose proof (sign_input_resolved sizes (signed_at k script self) i k
                  (TransactionInput.set_script_sig script input)
                  txid key sk t entropy' der') as Hagain.
    rewrite signed_at_length, data_to_sign_signed_at, signed_at_twice in Hagain.
    apply Hagain; [exact Hi|by apply signed_at_lookup|exact Htxid|exact Hn|exact Hm
                  |exact Hv|exact Ht|exact Hkey|exact Hsig'].
Qed.

(** C4 (amended): for every builder with 1 <= n <= 255 inputs and at most
    255 outputs, an index i in [0, n) whose input has a transaction id that
    can be encoded (it holds no surrogate) and its output index in
    [0, 2^32), a sighash type that is one byte, a private key the library
    accepts and a signature it returns, [sign_input] raises nothing and
    sets the script of input i to
    [len(signature)][signature][len(pubkey)][pubkey], the signature being
    the DER signature followed by the sighash type byte and each length
    prefix one byte holding the length; the other fields of input i, every
    other input, the outputs, the fee rate and the change address are as
    before; signing the same input again replaces the script. *)
Theorem sign_input_sets_script self i input txid key sk t entropy der :
  (1 <= length (inputs self) <= 255)%nat ->
  (length (outputs self) <= 255)%nat ->
  0 <= i < Z.of_nat (length (inputs self)) ->
  inputs self !! Z.to_nat i = Some input ->
  encode (TransactionInput.txid input) = Ok txid ->
  0 <= TransactionInput.vout input < 2 ^ 32 ->
  0 <= t < 256 ->
  from_string key = Ok sk ->
  sign_digest sk (double_sha256 (data_to_sign self txid (TransactionInput.vout input))) entropy = Ok der ->
  let signature := der ++ [low_byte t] in
  let public_key := verifying_key_to_string sk in
  let script :=
    [low_byte (Z.of_nat (length signature))] ++ signature
    ++ [low_byte (Z.of_nat (length public_key))] ++ public_key in
  let after := fst (sign_input i key t entropy self) in
  snd (sign_input i key t entropy self) = Ok tt
  /\ inputs after !! Z.to_nat i
     = Some {| TransactionInput.txid := TransactionInput.txid input;
               TransactionInput.vout := TransactionInput.vout input;
               TransactionInput.script_sig := Some script;
               TransactionInput.witness := TransactionInput.witness input;
               TransactionInput.sequence := TransactionInput.sequence input |}
  /\ byte_val (low_byte (Z.of_nat (length signature))) = Z.of_nat (length signature)
  /\ byte_val (low_byte (Z.of_nat (length public_key))) = Z.of_nat (length public_key)
  /\ (forall j, j <> Z.to_nat i -> inputs after !! j = inputs self !! j)
  /\ length (inputs after) = length (inputs self)
  /\ outputs after = outputs self
  /\ fee_rate after = fee_rate self
  /\ change_address after = change_address self
  /\ (forall entropy' der',
        sign_digest sk (double_sha256 (data_to_sign self txid (TransactionInput.vout input))) entropy' = Ok der' ->
        let script' := unlocking_script der' t public_key in
        sign_input i key t entropy' after = (signed_at (Z.to_nat i) script' self, Ok tt)
        /\ inputs (signed_at (Z.to_nat i) script' self) !! Z.to_nat i
           = Some (TransactionInput.set_script_sig script' input)).
Proof.
  intros [_ Hn] Hm Hi Hk Htxid Hv Ht Hkey Hsig.
  exact (sign_input_effect self i (Z.to_nat i) input txid key sk t entropy der
           (index_nonneg _ _ Hi) Hk Htxid Hn Hm Hv Ht Hkey Hsig).
Qed.

(** C9 (amended): for every builder with 1 <= n <= 255 inputs and at most
    255 outputs and every index i with -n <= i < 0 whose input, input
    n + i, has a transaction id that can be encoded (it holds no surrogate)
    and its output index in [0, 2^32), [sign_input] with a private
    key the library accepts and a signature it returns raises nothing and
    sets the script of input n + i, leaving every other input as it is; for
    i = -1 that is the last input. *)
Theorem sign_input_negative_index self i input txid key sk t entropy der :
  (1 <= length (inputs self) <= 255)%nat ->
  (length (outputs self) <= 255)%nat ->
  - Z.of_nat (length (inputs self)) <= i < 0 ->
  let k := Z.to_nat (Z.of_nat (length (inputs self)) + i) in
  inputs self !! k = Some input ->
  encode (TransactionInput.txid input) = Ok txid ->
  0 <= TransactionInput.vout input < 2 ^ 32 ->
  0 <= t < 256 ->
  from_string key = Ok sk ->
  sign_digest sk (double_sha256 (data_to_sign self txid (TransactionInput.vout input))) entropy = Ok der ->
  let script := unlocking_script der t (verifying_key_to_string sk) in
  let after := fst (sign_input i key t entropy self) in
  snd (sign_input i key t entropy self) = Ok tt
  /\ inputs after !! k = Some (TransactionInput.set_script_sig script input)
  /\ (forall j, j <> k -> inputs after !! j = inputs self !! j)
  /\ (i = -1 -> last (inputs after)
                = Some (TransactionInput.set_script_sig script input)).
Proof.
  intros [Hn1 Hn] Hm Hi k Hk Htxid Hv Ht Hkey Hsig script after.
  destruct (sign_input_effect self i k input txid key sk t entropy der
              (index_negative _ _ Hi) Hk Htxid Hn Hm Hv Ht Hkey Hsig)
    as (Hok & Hset & _ & _ & Hframe & Hlen & _).
  fold after in Hok, Hset, Hframe, Hlen.
  split_and!; try done.
  intros ->. rewrite last_lookup, Hlen.
  etransitivity; [|exact Hset]. f_equal. subst k. lia.
Qed.

(** C7 (amended): for every builder with n inputs and every index outside
    [-n, n), [sign_input] and [create_signature_hash] raise and leave the
    builder, scripts included, as it is; the exception is [IndexError]
    when n <= 255 and [OverflowError] when n > 255. *)
Theorem sign_input_index_out_of_range self i key t entropy :
  i < - Z.of_nat (length (inputs self)) \/ Z.of_nat (length (inputs self)) <= i ->
  let e := if (length (inputs self) <=? 255)%nat then IndexError else OverflowError in
  sign_input i key t entropy self = (self, Raise e)
  /\ create_signature_hash i t self = (self, Raise e).
Proof.
  intros Hi e.
  assert (He : signature_hash_outcome self i = Raise e).
  { unfold signature_hash_outcome, e.
    rewrite (getitem_outside _ _ (index_outside _ _ Hi)).
    destruct (Nat.leb_spec (length (inputs self)) 255);
      destruct (Z.ltb_spec 255 (Z.of_nat (length (inputs self)))); (done || lia). }
  split.
  - by apply sign_input_hash_raises.
  - by rewrite create_signature_hash_outcome, He.
Qed.

(** C10 (amended): for every builder with at most 255 inputs and at most
    255 outputs both count bytes of the signature hash are written, and
    [create_signature_hash] returns a digest for every index that selects
    an input whose transaction id can be encoded (it holds no surrogate)
    and whose output index is in [0, 2^32); with more than 255 inputs or
    more than 255 outputs [create_signature_hash] raises for every index,
    and so does [sign_input], the builder being left as it is; the
    exception is [OverflowError] when the inputs are more than 255, and
    also when the index selects an input with such a transaction id and
    output index. *)
Theorem signature_hash_count_limits self :
  ((length (inputs self) <= 255)%nat -> (length (outputs self) <= 255)%nat ->
     to_bytes1 (Z.of_nat (length (inputs self)))
     = Ok [low_byte (Z.of_nat (length (inputs self)))]
     /\ to_bytes1 (Z.of_nat (length (outputs self)))
        = Ok [low_byte (Z.of_nat (length (outputs self)))]
     /\ forall i t input txid,
          getitem (inputs self) i = Ok input ->
          encode (TransactionInput.txid input) = Ok txid ->
          0 <= TransactionInput.vout input < 2 ^ 32 ->
          exists d, create_signature_hash i t self = (self, Ok d)
                    /\ length d = 32%nat)
  /\ ((255 < length (inputs self))%nat \/ (255 < length (outputs self))%nat ->
      forall i t, exists e,
        create_signature_hash i t self = (self, Raise e)
        /\ (forall key entropy, sign_input i key t entropy self = (self, Raise e))
        /\ ((255 < length (inputs self))%nat -> e = OverflowError)
        /\ (forall input txid, getitem (inputs self) i = Ok input ->
              encode (TransactionInput.txid input) = Ok txid ->
              0 <= TransactionInput.vout input < 2 ^ 32 -> e = OverflowError)).
Proof.
  split.
  - intros Hn Hm. split_and!; try (apply to_bytes1_small; lia).
    intros i t input txid Hget Htxid Hv. eexists. split.
    + rewrite create_signature_hash_outcome.
      by rewrite (signature_hash_outcome_ok _ _ _ _ Hget Htxid Hn Hm Hv).
    + apply sha256_digest_length.
  - intros Hcount i t.
    destruct (signature_hash_outcome_overflow self i Hcount) as (e & He & Hin & Hout).
    exists e. split_and!; try done.
    + by rewrite create_signature_hash_outcome, He.
    + intros key entropy. by apply sign_input_hash_raises.
Qed.

End SigningClaims.

(** The theorem at index 1 of a builder with two inputs: the second input
    gets the script, the first is as before. *)
Lemma sign_input_sets_script_witness :
  let after := fst (sign_input 1 key7 SIGHASH_ALL nonce5 two_input_builder) in
  snd (sign_input 1 key7 SIGHASH_ALL nonce5 two_input_builder) = Ok tt
  /\ (inputs after !! 1%nat ≫= TransactionInput.script_sig)
     = Some (unlocking_script der_second SIGHASH_ALL (verifying_key_to_string sk7))
  /\ inputs after !! 0%nat = inputs two_input_builder !! 0%nat
  /\ length (inputs after) = length (inputs two_input_builder).
Proof.
  intros after.
  destruct (sign_input_sets_script secp256k1_sizes two_input_builder 1
              (TransactionInput.init utxo1) txid1 key7 sk7 SIGHASH_ALL nonce5
              der_second)
    as (Hok & Hset & _ & _ & Hframe & Hlen & _).
  - simpl; lia.
  - simpl; lia.
  - simpl; lia.
  - reflexivity.
  - reflexivity.
  - simpl; lia.
  - unfold SIGHASH_ALL; lia.
  - exact from_string_key7.
  - exact sign_digest_der_second.
  - fold after in Hset, Hframe, Hlen.
    split_and!; [exact Hok| |apply Hframe; simpl; lia|exact Hlen].
    change (Z.to_nat 1) with 1%nat in Hset. by rewrite Hset.
Defined.

(** The theorem at index -1 of the builder with two inputs: the index
    resolves to the second input, which gets the script and is the last;
    the first is as before. *)
Lemma sign_input_negative_index_witness :
  let after := fst (sign_input (-1) key7 SIGHASH_ALL nonce5 two_input_builder) in
  snd (sign_input (-1) key7 SIGHASH_ALL nonce5 two_input_builder) = Ok tt
  /\ (inputs after !! 1%nat ≫= TransactionInput.script_sig)
     = Some (unlocking_script der_second SIGHASH_ALL (verifying_key_to_string sk7))
  /\ inputs after !! 0%nat = inputs two_input_builder !! 0%nat
  /\ (last (inputs after) ≫= TransactionInput.script_sig)
     = Some (unlocking_script der_second SIGHASH_ALL (verifying_key_to_string sk7)).
Proof.
  intros after.
  destruct (sign_input_negative_index secp256k1_sizes two_input_builder (-1)
              (TransactionInput.init utxo1) txid1 key7 sk7 SIGHASH_ALL nonce5
              der_second)
    as (Hok & Hset & Hframe & Hlast).
  - simpl; lia.
  - simpl; lia.
  - simpl; lia.
  - reflexivity.
  - reflexivity.
  - simpl; lia.
  - unfold SIGHASH_ALL; lia.
  - exact from_string_key7.
  - exact sign_digest_der_second.
  - fold after in Hset, Hframe, Hlast.
    split_and!; [exact Hok| |apply Hframe; simpl; lia|by rewrite (Hlast eq_refl)].
    change (Z.to_nat (Z.of_nat (length (inputs two_input_builder)) + -1))
      with 1%nat in Hset.
    by rewrite Hset.
Defined.

(** The theorem at index 1 of a builder with one input. *)
Lemma sign_input_index_out_of_range_witness :
  sign_input 1 key7 SIGHASH_ALL nonce5 test_builder = (test_builder, Raise IndexError).
Proof.
  apply (sign_input_index_out_of_range (E := secp256k1)
           test_builder 1 key7 SIGHASH_ALL nonce5).
  simpl; lia.
Defined.

(** The theorem at the test builder, which is within the limits, and at a
    builder with 256 inputs, which is not. *)
Lemma signature_hash_count_limits_witness :
  (exists d, create_signature_hash 0 SIGHASH_ALL test_builder = (test_builder, Ok d))
  /\ exists e,
       create_signature_hash 0 SIGHASH_ALL (with_inputs 256 utxo0)
       = (with_inputs 256 utxo0, Raise e)
       /\ sign_input 0 key7 SIGHASH_ALL nonce5 (with_inputs 256 utxo0)
          = (with_inputs 256 utxo0, Raise e)
       /\ e = OverflowError.
Proof.
  split.
  - destruct (proj1 (signature_hash_count_limits (E := secp256k1) test_builder))
      as (_ & _ & Hd).
    + simpl; lia.
    + simpl; lia.
    + destruct (Hd 0 SIGHASH_ALL (TransactionInput.init utxo0) txid0) as (d & Hrun & _).
      * reflexivity.
      * reflexivity.
      * simpl; lia.
      * by exists d.
  - assert (Hlen : (255 < length (inputs (with_inputs 256 utxo0)))%nat).
    { rewrite (proj1 (with_inputs_inputs 256 utxo0)), repeat_length. lia. }
    destruct (proj2 (signature_hash_count_limits (E := secp256k1)
                       (with_inputs 256 utxo0))
                (or_introl Hlen) 0 SIGHASH_ALL) as (e & Hrun & Hsign & He & _).
    exists e. split_and!; [exact Hrun|apply Hsign|by apply He].
Defined.

(** The script [test_transaction_signing] would see for [key7] and [nonce5]:
    71 bytes of signature (70 of DER and the sighash type) and 64 of public
    key, each behind its length. *)
Example sign_input_test_script :
  option_map hex
    (inputs (fst (sign_input 0 key7 SIGHASH_ALL nonce5 test_builder)) !! 0%nat
     ≫= TransactionInput.script_sig)
  = Some ("47304402202f8bde4d1a07209355b4a7250a5c5128e88b84bddc619ab7cba8d569b240efe4"
          ++ "0220540aaf6c15452b7185bdee0fd69778306909d0fb22c67ae40364e67d6008356501"
          ++ "405cbdf0646e5db4eaa398f365f2ea7a0e3d419b7e0330e39ce92bddedcac4f9bc"
          ++ "6aebca40ba255960a3178d6d861a54dba813d0b813fde7b5a5082628087264da")%string.
Proof. vm_compute. reflexivity. Qed.

(** * Further properties of the builder *)

(** ** Coin selection: what is selected *)

(** A successful run of [select_utxos]: the selection is a prefix of the
    sorted candidates that covers the target, and no shorter prefix that is
    not empty covers it. *)
Lemma select_utxos_run self available target :
  target <= sum_amount available ->
  exists selected,
    select_utxos target (self, available) = ((self, available), Ok selected)
    /\ selected `prefix_of` sorted_reverse UTXO.amount available
    /\ target <= sum_amount selected
    /\ (forall p q, selected = p ++ q -> p <> [] -> q <> [] ->
                    sum_amount p < target).
Proof.
  intros Hsum.
  destruct (select_loop_spec (sorted_reverse UTXO.amount available) target [] 0)
    as (pre & Hloop & Hpre & Hend & Hmin).
  simpl in Hloop. rewrite Z.add_0_l in Hloop.
  assert (Hcover : target <= sum_amount pre).
  { destruct Hend as [[_ Hge]|[Hp Hl]]; [lia|].
    rewrite Hp, sum_amount_sorted. lia. }
  exists pre. split_and!; try done.
  unfold select_utxos, bind, get. cbn [snd]. rewrite Hloop.
    destruct (Z.ltb_spec (sum_amount pre) target); [lia|done].
Qed.

(** In a descending list no sub-multiset sums to more than the prefix of its
    length. *)
Lemma sum_amount_top l s :
  StronglySorted (desc UTXO.amount) l -> s ⊆+ l ->
  sum_amount s <= sum_amount (take (length s) l).
Proof.
  intros Hl. revert s. induction Hl as [|x l Hl IH Hx]; intros s Hs.
  - apply submseteq_nil_r in Hs as ->. done.
  - apply submseteq_cons_r in Hs as [Hs|(s' & Hperm & Hs')].
    + specialize (IH s Hs). pose proof (submseteq_length _ _ Hs) as Hlen.
      destruct (length s) as [|j] eqn:Hj; [by destruct s|].
      destruct (lookup_lt_is_Some_2 l j ltac:(lia)) as [y Hy].
      rewrite (take_S_r _ _ _ Hy), sum_amount_app in IH.
      cbn [take]. change (sum_amount (x :: take j l))
        with (UTXO.amount x + sum_amount (take j l)).
      rewrite List.Forall_forall in Hx.
      assert (UTXO.amount y <= UTXO.amount x).
      { apply Hx. apply list_elem_of_In. by eapply list_elem_of_lookup_2. }
      unfold sum_amount in IH at 3. simpl in IH. lia.
    + rewrite (sum_amount_perm _ _ Hperm), (Permutation_length Hperm).
      cbn [length take].
      change (sum_amount (x :: s')) with (UTXO.amount x + sum_amount s').
      change (sum_amount (x :: take (length s') l))
        with (UTXO.amount x + sum_amount (take (length s') l)).
      specialize (IH s' Hs'). lia.
Qed.

(** X1: with a positive target that the candidates cover, [select_utxos]
    returns a selection of candidates (each used at most as often as it is
    offered) whose amounts sum to the target or more, and it is one of the
    fewest UTXOs possible: every collection of candidates whose amounts sum
    to the target or more has at least as many elements. *)
Theorem select_utxos_fewest self available target :
  0 < target ->
  target <= sum_amount available ->
  exists selected,
    select_utxos target (self, available) = ((self, available), Ok selected)
    /\ selected ⊆+ available
    /\ target <= sum_amount selected
    /\ forall s, s ⊆+ available -> target <= sum_amount s ->
                 (length selected <= length s)%nat.
Proof.
  intros Hpos Hsum.
  destruct (select_utxos_run self available target Hsum)
    as (selected & Hrun & Hpre & Hcover & Hmin).
  exists selected. split_and!; [exact Hrun| |exact Hcover|].
  { rewrite <- (sorted_reverse_perm UTXO.amount available).
    destruct Hpre as [k ->]. by apply submseteq_inserts_r. }
  intros s Hs Hcov.
  destruct (Nat.le_gt_cases (length selected) (length s)) as [|Hlt]; [done|].
  exfalso.
  assert (Hs' : s ⊆+ sorted_reverse UTXO.amount available).
  { by rewrite (sorted_reverse_perm UTXO.amount available). }
  pose proof (sum_amount_top _ _ (sorted_reverse_sorted UTXO.amount available) Hs')
    as Htop.
  set (sorted_utxos := sorted_reverse UTXO.amount available) in *.
  assert (Hne : s <> []) by (intros ->; unfold sum_amount in Hcov; simpl in Hcov; lia).
  assert (Htake : take (length s) sorted_utxos = take (length s) selected).
  { destruct Hpre as [k Hk]. rewrite Hk. by rewrite take_app_le by lia. }
  rewrite Htake in Htop.
  assert (sum_amount (take (length s) selected) < target); [|lia].
  apply (Hmin _ (drop (length s) selected)).
  - by rewrite take_drop.
  - destruct s; [done|]. destruct selected; [simpl in Hlt; lia|done].
  - intros Hd. apply (f_equal length) in Hd. rewrite length_drop in Hd.
    simpl in Hd. lia.
Qed.

(** The theorem at [test_utxos] and a target of 250000: both UTXOs are
    selected, and no single one covers the target. *)
Lemma select_utxos_fewest_witness :
  exists selected,
    select_utxos 250000 (init, test_utxos) = ((init, test_utxos), Ok selected)
    /\ selected ⊆+ test_utxos
    /\ 250000 <= sum_amount selected
    /\ forall s, s ⊆+ test_utxos -> 250000 <= sum_amount s ->
                 (length selected <= length s)%nat.
Proof.
  apply (select_utxos_fewest init test_utxos 250000).
  - lia.
  - vm_compute. discriminate.
Defined.

Lemma desc_app_le (l1 l2 : list UTXO.t) u v :
  StronglySorted (desc UTXO.amount) (l1 ++ l2) ->
  u ∈ l1 -> v ∈ l2 -> UTXO.amount v <= UTXO.amount u.
Proof.
  induction l1 as [|x l1 IH]; intros Hs Hu Hv; [by apply elem_of_nil in Hu|].
  simpl in Hs. apply StronglySorted_inv in Hs as [Hs Hall].
  apply elem_of_cons in Hu as [->|Hu]; [|by apply IH].
  rewrite List.Forall_forall in Hall. apply Hall.
  apply list_elem_of_In, elem_of_app. by right.
Qed.

(** X2: whenever the candidates cover the target, the selection and the
    candidates left over make up the candidate list (each UTXO is selected
    at most as often as it is offered, none is invented), and no UTXO left
    over has a larger amount than a selected one. *)
Theorem select_utxos_largest_first self available target :
  target <= sum_amount available ->
  exists selected rest,
    select_utxos target (self, available) = ((self, available), Ok selected)
    /\ selected ++ rest ≡ₚ available
    /\ forall u v, u ∈ selected -> v ∈ rest -> UTXO.amount v <= UTXO.amount u.
Proof.
  intros Hsum.
  destruct (select_utxos_run self available target Hsum)
    as (selected & Hrun & [rest Hrest] & _).
  exists selected, rest. split_and!; [exact Hrun| |].
  - rewrite <- Hrest. apply sorted_reverse_perm.
  - intros u v. apply desc_app_le. rewrite <- Hrest. apply sorted_reverse_sorted.
Qed.

(** The theorem at the first case of [test_utxo_selection]. *)
Lemma select_utxos_largest_first_witness :
  exists selected rest,
    select_utxos 50000 (init, test_utxos) = ((init, test_utxos), Ok selected)
    /\ selected ++ rest ≡ₚ test_utxos
    /\ forall u v, u ∈ selected -> v ∈ rest -> UTXO.amount v <= UTXO.amount u.
Proof.
  apply (select_utxos_largest_first init test_utxos 50000).
  vm_compute. discriminate.
Defined.

(** X3: whenever the candidates cover the target, the selected UTXOs of any
    one amount are the first UTXOs of that amount in the candidate list, in
    the order of that list: among equal amounts the earlier candidate is
    taken first. *)
Theorem select_utxos_ties_in_order self available target :
  target <= sum_amount available ->
  exists selected,
    select_utxos target (self, available) = ((self, available), Ok selected)
    /\ forall k, with_key UTXO.amount k selected
                 `prefix_of` with_key UTXO.amount k available.
Proof.
  intros Hsum.
  destruct (select_utxos_run self available target Hsum)
    as (selected & Hrun & [rest Hrest] & _).
  exists selected. split; [exact Hrun|]. intros k.
  rewrite <- (sorted_reverse_stable UTXO.amount k available), Hrest.
  unfold with_key. rewrite List.filter_app. by eexists.
Qed.

(** The theorem at two candidates of one amount and a target one covers. *)
Lemma select_utxos_ties_in_order_witness :
  exists selected,
    select_utxos 100 (init, [UTXO.Build (literal "aa") 0 100 "76a9"; UTXO.Build (literal "bb") 1 100 "76a9"])
    = ((init, [UTXO.Build (literal "aa") 0 100 "76a9"; UTXO.Build (literal "bb") 1 100 "76a9"]), Ok selected)
    /\ forall k, with_key UTXO.amount k selected
                 `prefix_of` with_key UTXO.amount k
                      [UTXO.Build (literal "aa") 0 100 "76a9"; UTXO.Build (literal "bb") 1 100 "76a9"].
Proof.
  apply (select_utxos_ties_in_order init
           [UTXO.Build (literal "aa") 0 100 "76a9"; UTXO.Build (literal "bb") 1 100 "76a9"] 100).
  vm_compute. discriminate.
Defined.

(** ** Fee and change, composed *)

Lemma sum_outputs_app l1 l2 :
  sum_outputs (l1 ++ l2) = sum_outputs l1 + sum_outputs l2.
Proof.
  induction l1 as [|o l1 IH]; [done|].
  unfold sum_outputs in *. simpl. lia.
Qed.

(** X4: every [add_input] raises the fee [calculate_fee] returns by 68 times
    the fee rate and every [add_output] by 34 times the fee rate, so with a
    positive fee rate the fee is positive and grows strictly with each input
    and output; the fee rate itself is not checked, and a rate of zero or
    less gives a fee of zero or less. *)
Theorem calculate_fee_grows self fee :
  calculate_fee self = (self, Ok fee) ->
  (forall utxo,
     snd (calculate_fee (fst (add_input utxo self))) = Ok (fee + 68 * fee_rate self))
  /\ (forall amount script_pubkey,
        snd (calculate_fee (fst (add_output amount script_pubkey self)))
        = Ok (fee + 34 * fee_rate self))
  /\ (0 < fee_rate self ->
      0 < fee /\ fee < fee + 68 * fee_rate self /\ fee < fee + 34 * fee_rate self)
  /\ (fee_rate self <= 0 -> fee <= 0).
Proof.
  unfold calculate_fee, bind, get, ret. intros [= <-]. split_and!.
  - intros utxo. unfold add_input, bind, get, put. cbn [fst snd inputs outputs
      fee_rate set_inputs]. rewrite length_app. simpl. f_equal. lia.
  - intros amount script_pubkey. unfold add_output, bind, get, put.
    cbn [fst snd inputs outputs fee_rate set_outputs]. rewrite length_app.
    simpl. f_equal. lia.
  - intros Hrate. nia.
  - intros Hrate. nia.
Qed.

(** The theorem at the builder of [test_fee_calculation]. *)
Lemma calculate_fee_grows_witness :
  snd (calculate_fee (fst (add_input utxo0 test_builder))) = Ok 180
  /\ snd (calculate_fee (fst (add_output 1000 "76a914dd" test_builder))) = Ok 146.
Proof.
  destruct (calculate_fee_grows test_builder 112 eq_refl) as (Hin & Hout & _).
  split; [apply Hin|apply Hout].
Defined.

(** X5: when the fee passed to [add_change_output] is the one
    [calculate_fee] has just returned and a change output is appended
    (change at least 546, address configured), the outputs' total grows by
    exactly the change, so with [output_amount] the total of the outputs the
    difference between [input_amount] and the new total is that fee; but the
    fee [calculate_fee] returns afterwards is higher by 34 times the fee
    rate, the change output not having been counted.  When nothing is
    appended the builder and its fee are as before. *)
Theorem add_change_output_after_fee self input_amount output_amount fee :
  calculate_fee self = (self, Ok fee) ->
  let change_amount := input_amount - output_amount - fee in
  let after := fst (add_change_output input_amount output_amount fee self) in
  (546 <= change_amount -> change_configured self ->
     sum_outputs (outputs after) = sum_outputs (outputs self) + change_amount
     /\ (output_amount = sum_outputs (outputs self) ->
         input_amount - sum_outputs (outputs after) = fee)
     /\ calculate_fee after = (after, Ok (fee + 34 * fee_rate self)))
  /\ (~ (546 <= change_amount /\ change_configured self) ->
      after = self /\ calculate_fee after = (after, Ok fee)).
Proof.
  intros Hfee change_amount after. subst after.
  unfold add_change_output, bind, get, change_configured. fold change_amount.
  split.
  - intros Hge Haddr. rewrite Haddr.
    destruct (Z.geb_spec change_amount 546); [|lia]. cbn [andb].
    destruct (truthy_str_some _ Haddr) as (addr & -> & _).
    unfold add_output, bind, get, put. cbn [fst outputs set_outputs].
    rewrite sum_outputs_app.
    assert (Hone : sum_outputs [TransactionOutput.Build change_amount addr]
                   = change_amount) by (unfold sum_outputs; simpl; lia).
    rewrite Hone. split_and!; [done|lia|].
    revert Hfee. unfold calculate_fee, bind, get, ret.
    cbn [inputs outputs fee_rate set_outputs]. intros [= <-].
    rewrite length_app. simpl. do 2 f_equal. lia.
  - intros Hno.
    destruct (Z.geb_spec change_amount 546);
      destruct (truthy_str (change_address self)) eqn:Haddr; cbn [andb];
      try (by split).
    exfalso. apply Hno. by split.
Qed.

(** The theorem at [test_complete_transaction_build]: one input of 100000,
    one output of 50000, fee 112, change 49888. *)
Lemma add_change_output_after_fee_witness :
  sum_outputs (outputs (fst (add_change_output 100000 50000 112 test_builder)))
  = 50000 + 49888
  /\ calculate_fee (fst (add_change_output 100000 50000 112 test_builder))
     = (fst (add_change_output 100000 50000 112 test_builder), Ok 146).
Proof.
  destruct (add_change_output_after_fee test_builder 100000 50000 112 eq_refl)
    as [Hadd _].
  destruct Hadd as (Hsum & _ & Hfee).
  - vm_compute. discriminate.
  - reflexivity.
  - split; [exact Hsum|exact Hfee].
Defined.

(** ** What the signature hash covers *)

Lemma low_byte_inj a b :
  0 <= a < 256 -> 0 <= b < 256 -> low_byte a = low_byte b -> a = b.
Proof.
  intros Ha Hb Heq. rewrite <- (low_byte_val a Ha), <- (low_byte_val b Hb).
  by rewrite Heq.
Qed.

Lemma le_bytes_4_inj a b :
  0 <= a < 2 ^ 32 -> 0 <= b < 2 ^ 32 -> le_bytes 4 a = le_bytes 4 b -> a = b.
Proof.
  intros Ha Hb Heq.
  rewrite <- (le_int_le_bytes 4 a), <- (le_int_le_bytes 4 b), Heq; [done|..];
    change (256 ^ Z.of_nat 4) with (2 ^ 32); lia.
Qed.

Lemma decode_utf8_char c r :
  scalar_value c = true -> decode_char (utf8_char c ++ r) = Some (c, r).
Proof.
  intros Hc.
  assert (Hr : 0 <= c <= 0x10FFFF).
  { unfold scalar_value in Hc. lia. }
  unfold utf8_char.
  destruct (Z.ltb_spec c 0x80); [|destruct (Z.ltb_spec c 0x800);
    [|destruct (Z.ltb_spec c 0x10000)]];
    cbn [app decode_char]; cbv zeta;
    rewrite ?low_byte_val by (Z.div_mod_to_equations; lia).
  - destruct (Z.ltb_spec c 128); [done|lia].
  - destruct (Z.ltb_spec (192 + c / 64) 128); [Z.div_mod_to_equations; lia|].
    destruct (Z.ltb_spec (192 + c / 64) 224); [|Z.div_mod_to_equations; lia].
    do 2 f_equal. Z.div_mod_to_equations; lia.
  - destruct (Z.ltb_spec (224 + c / 4096) 128); [Z.div_mod_to_equations; lia|].
    destruct (Z.ltb_spec (224 + c / 4096) 224); [Z.div_mod_to_equations; lia|].
    destruct (Z.ltb_spec (224 + c / 4096) 240); [|Z.div_mod_to_equations; lia].
    do 2 f_equal. Z.div_mod_to_equations; lia.
  - destruct (Z.ltb_spec (240 + c / 262144) 128); [Z.div_mod_to_equations; lia|].
    destruct (Z.ltb_spec (240 + c / 262144) 224); [Z.div_mod_to_equations; lia|].
    destruct (Z.ltb_spec (240 + c / 262144) 240); [Z.div_mod_to_equations; lia|].
    do 2 f_equal. Z.div_mod_to_equations; lia.
Qed.

(** Two strings without surrogates that have the same UTF-8 bytes are the
    same string. *)
Lemma utf8_inj s1 s2 :
  forallb scalar_value s1 = true -> forallb scalar_value s2 = true ->
  utf8 s1 = utf8 s2 -> s1 = s2.
Proof.
  revert s2. induction s1 as [|c1 s1 IH]; intros [|c2 s2] H1 H2 Heq; try done.
  - cbn in H2. apply andb_prop in H2 as [H2 _].
    pose proof (decode_utf8_char c2 (utf8 s2) H2) as Hd.
    unfold utf8 in Heq. cbn in Heq. unfold utf8 in Hd. rewrite <- Heq in Hd. done.
  - cbn in H1. apply andb_prop in H1 as [H1 _].
    pose proof (decode_utf8_char c1 (utf8 s1) H1) as Hd.
    unfold utf8 in Heq. cbn in Heq. unfold utf8 in Hd. rewrite Heq in Hd. done.
  - cbn in H1, H2. apply andb_prop in H1 as [H1 H1']. apply andb_prop in H2 as [H2 H2'].
    pose proof (decode_utf8_char c1 (utf8 s1) H1) as Hd1.
    pose proof (decode_utf8_char c2 (utf8 s2) H2) as Hd2.
    unfold utf8 in *. cbn [map concat] in Heq. rewrite Heq, Hd2 in Hd1.
    injection Hd1 as -> Hd1. f_equal. by apply IH.
Qed.

Lemma encode_inj s1 s2 b : encode s1 = Ok b -> encode s2 = Ok b -> s1 = s2.
Proof.
  intros [H1 ->]%encode_ok_inv [H2 Heq]%encode_ok_inv. by apply utf8_inj.
Qed.

Lemma data_to_sign_inj self1 id1 v1 self2 id2 v2 :
  (length (inputs self1) <= 255)%nat -> (length (outputs self1) <= 255)%nat ->
  (length (inputs self2) <= 255)%nat -> (length (outputs self2) <= 255)%nat ->
  0 <= v1 < 2 ^ 32 -> 0 <= v2 < 2 ^ 32 ->
  data_to_sign self1 id1 v1 = data_to_sign self2 id2 v2 ->
  length (inputs self1) = length (inputs self2)
  /\ id1 = id2 /\ v1 = v2
  /\ length (outputs self1) = length (outputs self2).
Proof.
  intros Hn1 Hm1 Hn2 Hm2 Hv1 Hv2. unfold data_to_sign. intros Heq.
  apply app_inj_1 in Heq as [_ Heq]; [|done].
  apply app_inj_1 in Heq as [Hn Heq]; [|done].
  rewrite (assoc (++) id1), (assoc (++) id2) in Heq.
  apply app_inj_2 in Heq as [Heq Hm]; [|done].
  apply app_inj_2 in Heq as [Ht Hv]; [|by rewrite !le_bytes_length].
  injection Hn as Hn. injection Hm as Hm.
  apply low_byte_inj in Hn; [|lia..]. apply low_byte_inj in Hm; [|lia..].
  apply le_bytes_4_inj in Hv; [|lia..].
  split_and!; [lia|done|done|lia].
Qed.

(** X6: the byte string [create_signature_hash] hashes determines what went
    into it.  For two calls that return (builders within 255 inputs and 255
    outputs, indices that select inputs whose transaction id can be encoded
    and whose output index is in [0, 2^32)), each result is the double
    SHA-256 of the bytes [data_to_sign], and equal bytes mean equal input
    counts, equal transaction ids, equal output indices and equal output
    counts: two digests can agree only on equal fields or by a collision of
    the hash. *)
Theorem create_signature_hash_preimage_injective
    self1 i1 t1 input1 id1 self2 i2 t2 input2 id2 :
  getitem (inputs self1) i1 = Ok input1 ->
  getitem (inputs self2) i2 = Ok input2 ->
  encode (TransactionInput.txid input1) = Ok id1 ->
  encode (TransactionInput.txid input2) = Ok id2 ->
  (length (inputs self1) <= 255)%nat -> (length (outputs self1) <= 255)%nat ->
  (length (inputs self2) <= 255)%nat -> (length (outputs self2) <= 255)%nat ->
  0 <= TransactionInput.vout input1 < 2 ^ 32 ->
  0 <= TransactionInput.vout input2 < 2 ^ 32 ->
  let data1 := data_to_sign self1 id1 (TransactionInput.vout input1) in
  let data2 := data_to_sign self2 id2 (TransactionInput.vout input2) in
  create_signature_hash i1 t1 self1
  = (self1, Ok (SHA256.digest (SHA256.digest data1)))
  /\ create_signature_hash i2 t2 self2
     = (self2, Ok (SHA256.digest (SHA256.digest data2)))
  /\ (data1 = data2 ->
      length (inputs self1) = length (inputs self2)
      /\ TransactionInput.txid input1 = TransactionInput.txid input2
      /\ TransactionInput.vout input1 = TransactionInput.vout input2
      /\ length (outputs self1) = length (outputs self2)).
Proof.
  intros Hg1 Hg2 He1 He2 Hn1 Hm1 Hn2 Hm2 Hv1 Hv2 data1 data2. split_and!.
  - rewrite create_signature_hash_outcome.
    by rewrite (signature_hash_outcome_ok _ _ _ _ Hg1 He1 Hn1 Hm1 Hv1).
  - rewrite create_signature_hash_outcome.
    by rewrite (signature_hash_outcome_ok _ _ _ _ Hg2 He2 Hn2 Hm2 Hv2).
  - intros Heq.
    apply data_to_sign_inj in Heq as (Hn & Hid & Hv & Hm); try done.
    subst id2. split_and!; try done. by eapply encode_inj.
Qed.

(** The theorem at the two inputs of the builder with two inputs: each call
    returns the double SHA-256 of its bytes, and the bytes differ, as the
    output indices do. *)
Lemma create_signature_hash_preimage_injective_witness :
  create_signature_hash 0 1 two_input_builder
  = (two_input_builder,
     Ok (SHA256.digest (SHA256.digest (data_to_sign two_input_builder txid0 0))))
  /\ create_signature_hash 1 1 two_input_builder
     = (two_input_builder,
        Ok (SHA256.digest (SHA256.digest (data_to_sign two_input_builder txid1 1))))
  /\ data_to_sign two_input_builder txid0 0 <> data_to_sign two_input_builder txid1 1.
Proof.
  destruct (create_signature_hash_preimage_injective
              two_input_builder 0 1 (TransactionInput.init utxo0) txid0
              two_input_builder 1 1 (TransactionInput.init utxo1) txid1)
    as (Hrun0 & Hrun1 & Hinj).
  - reflexivity.
  - reflexivity.
  - reflexivity.
  - reflexivity.
  - simpl; lia.
  - simpl; lia.
  - simpl; lia.
  - simpl; lia.
  - simpl; lia.
  - simpl; lia.
  - split_and!; [exact Hrun0|exact Hrun1|].
    intros Heq. destruct (Hinj Heq) as (_ & _ & Hv & _). discriminate Hv.
Defined.

(** X7: the signature hash covers nothing but the two counts and the
    transaction id and output index of the input it is asked for: two
    builders with as many inputs and as many outputs, and two indices that
    select inputs of one transaction id and one output index, give the same
    result, whatever the sighash types, the amounts and scripts of the
    outputs, the other inputs, the scripts already set, the fee rate and the
    change address. *)
Theorem create_signature_hash_covers self1 i1 t1 input1 self2 i2 t2 input2 :
  getitem (inputs self1) i1 = Ok input1 ->
  getitem (inputs self2) i2 = Ok input2 ->
  length (inputs self1) = length (inputs self2) ->
  length (outputs self1) = length (outputs self2) ->
  TransactionInput.txid input1 = TransactionInput.txid input2 ->
  TransactionInput.vout input1 = TransactionInput.vout input2 ->
  snd (create_signature_hash i1 t1 self1) = snd (create_signature_hash i2 t2 self2).
Proof.
  intros Hg1 Hg2 Hn Hm Ht Hv.
  rewrite !create_signature_hash_outcome. cbn [snd].
  unfold signature_hash_outcome, data_to_sign. by rewrite Hg1, Hg2, Hn, Hm, Ht, Hv.
Qed.

(** The theorem at the test builder and the same builder with another
    output in place of its own: the digest is the same. *)
Lemma create_signature_hash_covers_witness :
  snd (create_signature_hash 0 1 test_builder)
  = snd (create_signature_hash (-1) 3
           (set_outputs [TransactionOutput.Build 99999 "76a914ee"] test_builder)).
Proof.
  apply (create_signature_hash_covers test_builder 0 1 (TransactionInput.init utxo0)
           (set_outputs [TransactionOutput.Build 99999 "76a914ee"] test_builder)
           (-1) 3 (TransactionInput.init utxo0)); reflexivity.
Defined.

(** ** Signing: every outcome *)

Lemma getitem_ok_inv {A} (l : list A) i x :
  getitem l i = Ok x -> exists k, index (length l) i = Some k /\ l !! k = Some x.
Proof.
  unfold getitem. destruct (index (length l) i) as [k|]; [|done].
  destruct (l !! k) as [y|] eqn:Hk; [|done]. intros [= ->]. by exists k.
Qed.

Lemma to_bytes1_ok_inv n b :
  to_bytes1 n = Ok b -> 0 <= n <= 255 /\ b = [low_byte n].
Proof.
  intros Hb. destruct (Z.le_gt_cases n 255) as [Hle|Hgt].
  - destruct (Z.lt_ge_cases n 0) as [Hneg|Hpos].
    + unfold to_bytes1 in Hb. by destruct (Z.ltb_spec n 0); [|lia].
    + rewrite to_bytes1_small in Hb by lia. split; [lia|congruence].
  - rewrite to_bytes1_big in Hb by lia. done.
Qed.

Lemma signature_hash_outcome_ok_inv self i d :
  signature_hash_outcome self i = Ok d ->
  exists input txid, getitem (inputs self) i = Ok input
    /\ encode (TransactionInput.txid input) = Ok txid
    /\ d = double_sha256 (data_to_sign self txid (TransactionInput.vout input)).
Proof.
  unfold signature_hash_outcome.
  destruct (_ <? _); [done|].
  destruct (getitem (inputs self) i) as [input|]; [|done].
  destruct (encode (TransactionInput.txid input)) as [txid|] eqn:Htxid; [|done].
  destruct (_ && _); [|done]. destruct (_ <? _); [done|].
  intros [= <-]. by exists input, txid.
Qed.

Section SigningOutcomes.
Context {E : ECDSA}.

(** [sign_input] either raises, the builder being as before, or went through
    every step and set one script. *)
Lemma sign_input_cases self i key t entropy :
  (exists e, sign_input i key t entropy self = (self, Raise e))
  \/ (exists k input txid sk der,
        index (length (inputs self)) i = Some k
        /\ inputs self !! k = Some input
        /\ encode (TransactionInput.txid input) = Ok txid
        /\ from_string key = Ok sk
        /\ sign_digest sk (double_sha256
                             (data_to_sign self txid (TransactionInput.vout input)))
             entropy = Ok der
        /\ 0 <= t < 256
        /\ (length (der ++ [low_byte t]) <= 255)%nat
        /\ (length (verifying_key_to_string sk) <= 255)%nat
        /\ sign_input i key t entropy self
           = (signed_at k (unlocking_script der t (verifying_key_to_string sk)) self,
              Ok tt)).
Proof.
  unfold sign_input, bind. rewrite create_signature_hash_outcome.
  destruct (signature_hash_outcome self i) as [d|e] eqn:Hout; [|left; by exists e].
  apply signature_hash_outcome_ok_inv in Hout as (input & txid & Hget & Htxid & ->).
  apply getitem_ok_inv in Hget as (k & Hi & Hk).
  unfold lift.
  destruct (from_string key) as [sk|e] eqn:Hkey; [|left; by exists e].
  destruct (sign_digest sk _ entropy) as [der|e] eqn:Hsig; [|left; by exists e].
  unfold bytes_of_int.
  destruct (Z.leb_spec 0 t); destruct (Z.ltb_spec t 256); cbn [andb];
    try (left; by eexists).
  destruct (to_bytes1 (Z.of_nat (length (der ++ [low_byte t])))) as [b1|e] eqn:Hb1;
    [|left; by exists e].
  destruct (to_bytes1 (Z.of_nat (length (verifying_key_to_string sk)))) as [b2|e]
    eqn:Hb2; [|left; by exists e].
  apply to_bytes1_ok_inv in Hb1 as [Hl1 ->]. apply to_bytes1_ok_inv in Hb2 as [Hl2 ->].
  right. exists k, input, txid, sk, der.
  split_and!; try done; try lia.
  unfold set_input_script_sig, bind, get, put. by rewrite Hi, Hk.
Qed.

(** X8: whatever its arguments, [sign_input] either raises and leaves the
    builder exactly as it was, or returns and has changed the script of one
    input only.  In both cases the inputs keep their number, order,
    transaction id, output index, witness and sequence, every input but one
    is as before, and the outputs, the fee rate and the change address are
    as before. *)
Theorem sign_input_frame self i key t entropy :
  let after := fst (sign_input i key t entropy self) in
  (forall e, snd (sign_input i key t entropy self) = Raise e -> after = self)
  /\ Forall2 (fun a b =>
                TransactionInput.txid a = TransactionInput.txid b
                /\ TransactionInput.vout a = TransactionInput.vout b
                /\ TransactionInput.witness a = TransactionInput.witness b
                /\ TransactionInput.sequence a = TransactionInput.sequence b)
       (inputs self) (inputs after)
  /\ (exists k, forall j, j <> k -> inputs after !! j = inputs self !! j)
  /\ outputs after = outputs self
  /\ fee_rate after = fee_rate self
  /\ change_address after = change_address self.
Proof.
  intros after. subst after.
  destruct (sign_input_cases self i key t entropy)
    as [[e ->]|(k & input & txid & sk & der & _ & _ & _ & _ & _ & _ & _ & _ & ->)];
    cbn [fst snd].
  - split_and!; try done.
    + by apply Forall2_same_length_lookup_2; [|intros j a b -> [= <-]].
    + by exists 0%nat.
  - split_and!; try done.
    + apply Forall2_same_length_lookup_2; [by rewrite signed_at_length|].
      intros j a b Ha Hb. simpl in Hb. rewrite list_lookup_alter in Hb.
      destruct (decide (k = j)) as [->|_].
      * rewrite Ha in Hb. by injection Hb as <-.
      * rewrite Ha in Hb. by injection Hb as <-.
    + exists k. intros j Hj. by apply signed_at_lookup_ne.
Qed.

(** X9: when the signature hash of the input exists (counts within 255, an
    index that selects an input whose transaction id can be encoded and
    whose output index is in [0, 2^32)), [sign_input] reports the first
    step that fails, in the order of the source, and leaves the builder as
    it was: a private key the library refuses gives the library's
    exception; otherwise a failure of the signing call gives that
    exception; otherwise a sighash type outside 0..255 gives the
    [ValueError] of [bytes([sig_hash_type])]. *)
Theorem sign_input_first_failure self i key t entropy input txid :
  getitem (inputs self) i = Ok input ->
  encode (TransactionInput.txid input) = Ok txid ->
  (length (inputs self) <= 255)%nat ->
  (length (outputs self) <= 255)%nat ->
  0 <= TransactionInput.vout input < 2 ^ 32 ->
  let digest :=
    double_sha256 (data_to_sign self txid (TransactionInput.vout input)) in
  (forall e, from_string key = Raise e ->
     sign_input i key t entropy self = (self, Raise e))
  /\ (forall sk e, from_string key = Ok sk ->
        sign_digest sk digest entropy = Raise e ->
        sign_input i key t entropy self = (self, Raise e))
  /\ (forall sk der, from_string key = Ok sk ->
        sign_digest sk digest entropy = Ok der ->
        ~ 0 <= t < 256 ->
        sign_input i key t entropy self
        = (self, Raise (ValueError "bytes must be in range(0, 256)"))).
Proof.
  intros Hget Htxid Hn Hm Hv digest.
  assert (Hhash : forall k : bytes -> Method unit,
             bind (create_signature_hash i t) k self = k digest self).
  { intros k. unfold bind.
    by rewrite create_signature_hash_outcome,
      (signature_hash_outcome_ok _ _ _ _ Hget Htxid Hn Hm Hv). }
  unfold sign_input. rewrite Hhash. unfold bind, lift. split_and!.
  - by intros e ->.
  - by intros sk e -> ->.
  - intros sk der -> -> Ht. unfold bytes_of_int.
    destruct (Z.leb_spec 0 t); destruct (Z.ltb_spec t 256); cbn [andb];
      (done || lia).
Qed.

End SigningOutcomes.

(** The theorem at the test builder and an empty private key, which the
    library refuses. *)
Lemma sign_input_first_failure_witness :
  sign_input 0 [] SIGHASH_ALL nonce5 test_builder
  = (test_builder, Raise MalformedPointError).
Proof.
  destruct (sign_input_first_failure (E := secp256k1) test_builder 0 []
              SIGHASH_ALL nonce5 (TransactionInput.init utxo0) txid0) as (Hkey & _).
  - reflexivity.
  - reflexivity.
  - simpl; lia.
  - simpl; lia.
  - simpl; lia.
  - apply Hkey. reflexivity.
Defined.

(** ** Signing, then assembling *)

Lemma unlocking_script_length der t public_key :
  length (unlocking_script der t public_key)
  = (length der + length public_key + 3)%nat.
Proof.
  unfold unlocking_script. cbn [app length]. rewrite !length_app. simpl. lia.
Qed.

Section SignThenBuild.
Context {E : ECDSA} (sizes : ECDSA_sizes E).

(** X10: after a [sign_input] that goes through (counts within 255,
    transaction id of the input encodable, its output index in [0, 2^32),
    sighash type one byte, key accepted, signature returned), [build] shows the signed input with its script in
    hexadecimal, of twice (length of the DER signature + 67) characters, and
    shows every other input and every output as [build] did before the
    signing. *)
Theorem build_after_sign_input self i k input txid key sk t entropy der :
  index (length (inputs self)) i = Some k ->
  inputs self !! k = Some input ->
  encode (TransactionInput.txid input) = Ok txid ->
  (length (inputs self) <= 255)%nat ->
  (length (outputs self) <= 255)%nat ->
  0 <= TransactionInput.vout input < 2 ^ 32 ->
  0 <= t < 256 ->
  from_string key = Ok sk ->
  sign_digest sk (double_sha256
                    (data_to_sign self txid (TransactionInput.vout input)))
    entropy = Ok der ->
  let script := unlocking_script der t (verifying_key_to_string sk) in
  let after := fst (sign_input i key t entropy self) in
  exists before_tx after_tx,
    build self = (self, Ok before_tx)
    /\ build after = (after, Ok after_tx)
    /\ Transaction.inputs after_tx !! k
       = Some (Transaction.Input (TransactionInput.txid input)
                 (TransactionInput.vout input) (hex script)
                 (TransactionInput.sequence input))
    /\ String.length (hex script) = (2 * (length der + 67))%nat
    /\ (forall j, j <> k ->
          Transaction.inputs after_tx !! j = Transaction.inputs before_tx !! j)
    /\ Transaction.outputs after_tx = Transaction.outputs before_tx.
Proof.
  intros Hi Hk Htxid Hn Hm Hv Ht Hkey Hsig script after. subst after.
  rewrite (sign_input_resolved sizes _ _ _ _ _ _ _ _ _ _
             Hi Hk Htxid Hn Hm Hv Ht Hkey Hsig).
  fold script. cbn [fst].
  eexists _, _. split; [reflexivity|]. split; [reflexivity|].
  cbn [Transaction.inputs Transaction.outputs signed_at set_inputs inputs outputs].
  split_and!.
  - rewrite list_lookup_fmap, list_lookup_alter_eq, Hk. reflexivity.
  - rewrite hex_length. subst script.
    rewrite unlocking_script_length, (pubkey_length E sizes). lia.
  - intros j Hj. by rewrite !list_lookup_fmap, list_lookup_alter_ne.
  - done.
Qed.

End SignThenBuild.

(** The theorem at index -1 of the builder with two inputs: the second
    input is shown with its script, 137 bytes and 274 characters, and the
    first input and the output are shown as before the signing. *)
Lemma build_after_sign_input_witness :
  let script := unlocking_script der_second SIGHASH_ALL (verifying_key_to_string sk7) in
  let after := fst (sign_input (-1) key7 SIGHASH_ALL nonce5 two_input_builder) in
  exists before_tx after_tx,
    build two_input_builder = (two_input_builder, Ok before_tx)
    /\ build after = (after, Ok after_tx)
    /\ Transaction.inputs after_tx !! 1%nat
       = Some (Transaction.Input (literal "def456abc123") 1 (hex script) 4294967295)
    /\ String.length (hex script) = 274%nat
    /\ Transaction.inputs after_tx !! 0%nat
       = Some (Transaction.Input (literal "abc123def456") 0 EmptyString 4294967295)
    /\ Transaction.inputs after_tx !! 0%nat = Transaction.inputs before_tx !! 0%nat
    /\ Transaction.outputs after_tx = Transaction.outputs before_tx.
Proof.
  intros script after.
  destruct (build_after_sign_input secp256k1_sizes two_input_builder (-1) 1%nat
              (TransactionInput.init utxo1) txid1 key7 sk7 SIGHASH_ALL nonce5
              der_second)
    as (before_tx & after_tx & Hb & Ha & Hset & Hlen & Hframe & Hout).
  - reflexivity.
  - reflexivity.
  - reflexivity.
  - simpl; lia.
  - simpl; lia.
  - simpl; lia.
  - unfold SIGHASH_ALL; lia.
  - exact from_string_key7.
  - exact sign_digest_der_second.
  - fold script in Hset, Hlen. fold after in Ha.
    exists before_tx, after_tx.
    split_and!; [exact Hb|exact Ha|exact Hset|exact Hlen| |apply Hframe; lia|exact Hout].
    rewrite (Hframe 0%nat ltac:(lia)).
    apply (f_equal snd) in Hb. cbn [snd] in Hb. injection Hb as <-. reflexivity.
Defined.

(** ** Sequences of method calls *)

Lemma outpoint_set_script_sig script (l : list TransactionInput.t) (k : nat) :
  outpoint <$> alter (TransactionInput.set_script_sig script) k l = outpoint <$> l.
Proof.
  apply list_eq. intros j. rewrite !list_lookup_fmap, list_lookup_alter.
  destruct (decide (k = j)) as [->|]; [|done]. by destruct (l !! j).
Qed.

Section Calls.
Context {E : ECDSA}.

(** One call keeps the outputs and the outpoints of the inputs as a prefix,
    and the fee rate and change address as they are. *)
Lemma perform_grows (c : call) self :
  outputs self `prefix_of` outputs (perform c self)
  /\ outpoint <$> inputs self `prefix_of` outpoint <$> inputs (perform c self)
  /\ fee_rate (perform c self) = fee_rate self
  /\ change_address (perform c self) = change_address self.
Proof.
  destruct c as [utxo|amount script| |ia oa fee|i key t entropy|i t| ]; cbn [perform].
  - unfold add_input, bind, get, put. cbn [fst inputs outputs fee_rate change_address
      set_inputs]. split_and!; try done. rewrite fmap_app. by apply prefix_app_r.
  - unfold add_output, bind, get, put. cbn [fst inputs outputs fee_rate change_address
      set_outputs]. split_and!; try done. by apply prefix_app_r.
  - done.
  - unfold add_change_output, bind, get.
    destruct (_ && _); [|done].
    destruct (change_address self) as [addr|] eqn:Haddr; [|by unfold ret].
    unfold add_output, bind, get, put. cbn [fst inputs outputs fee_rate change_address
      set_outputs]. split_and!; try done. by apply prefix_app_r.
  - destruct (sign_input_cases self i key t entropy)
      as [[e ->]|(k & input & txid & sk & der & _ & _ & _ & _ & _ & _ & _ & _ & ->)];
      cbn [fst]; [done|].
    cbn [signed_at set_inputs inputs outputs fee_rate change_address].
    split_and!; try done. by rewrite outpoint_set_script_sig.
  - by rewrite create_signature_hash_outcome.
  - done.
Qed.

(** One call keeps the inputs well formed. *)
Lemma perform_well_formed (c : call) self :
  Forall input_well_formed (inputs self) ->
  Forall input_well_formed (inputs (perform c self)).
Proof.
  intros Hwf.
  destruct c as [utxo|amount script| |ia oa fee|i key t entropy|i t| ]; cbn [perform].
  - unfold add_input, bind, get, put. cbn [fst inputs set_inputs].
    apply Forall_app. split; [done|]. constructor; [|constructor].
    by split_and!.
  - done.
  - done.
  - unfold add_change_output, bind, get.
    destruct (_ && _); [|done]. by destruct (change_address self).
  - destruct (sign_input_cases self i key t entropy)
      as [[e ->]|(k & input & txid & sk & der & _ & _ & _ & _ & _ & _ & Hl1 & Hl2 & ->)];
      cbn [fst]; [done|].
    cbn [signed_at set_inputs inputs]. apply Forall_alter; [done|].
    intros x _ (Hseq & Hwit & _). split_and!; [done|done|].
    intros script [= <-]. exists (der ++ [low_byte t]), (verifying_key_to_string sk).
    split_and!; [by destruct der|done|done|done].
  - by rewrite create_signature_hash_outcome.
  - done.
Qed.

(** X11: no sequence of method calls, returning or raising, removes,
    reorders or replaces an input or an output: the outputs before are a
    prefix of the outputs after, the outpoints (transaction id, output
    index) of the inputs before are a prefix of those after, and no method
    changes the fee rate or the change address. *)
Theorem perform_all_grows (cs : list call) self :
  outputs self `prefix_of` outputs (perform_all cs self)
  /\ outpoint <$> inputs self `prefix_of` outpoint <$> inputs (perform_all cs self)
  /\ fee_rate (perform_all cs self) = fee_rate self
  /\ change_address (perform_all cs self) = change_address self.
Proof.
  revert self. induction cs as [|c cs IH]; intros self; [done|].
  cbn [perform_all fold_left]. fold (perform_all cs (perform c self)).
  destruct (IH (perform c self)) as (Ho & Hi & Hf & Hc).
  destruct (perform_grows c self) as (Ho' & Hi' & Hf' & Hc').
  split_and!; [by etrans|by etrans|congruence|congruence].
Qed.

(** X12: method calls keep every input well formed: its sequence is
    0xffffffff, its witness is absent, and its script, when there is one,
    has the form [len(sig)][sig][len(pk)][pk] with a signature that is not
    empty and both lengths in one byte.  So, from well-formed inputs and
    after any sequence of calls, [build] shows an empty script for an input
    exactly when the input has no script. *)
Theorem perform_all_well_formed (cs : list call) self :
  Forall input_well_formed (inputs self) ->
  let after := perform_all cs self in
  Forall input_well_formed (inputs after)
  /\ exists tx, build after = (after, Ok tx)
       /\ forall k input, inputs after !! k = Some input ->
            exists r, Transaction.inputs tx !! k = Some r
              /\ (Transaction.script_sig r = EmptyString
                  <-> TransactionInput.script_sig input = None).
Proof.
  intros Hwf after.
  assert (Hafter : Forall input_well_formed (inputs after)).
  { subst after. revert self Hwf. induction cs as [|c cs IH]; intros self Hwf; [done|].
    cbn [perform_all fold_left]. apply IH. by apply perform_well_formed. }
  split; [exact Hafter|]. eexists. split; [reflexivity|].
  intros k input Hk. exists (build_input input).
  cbn [Transaction.inputs]. rewrite list_lookup_fmap, Hk. split; [done|].
  rewrite Forall_lookup in Hafter. destruct (Hafter k input Hk) as (_ & _ & Hscript).
  unfold build_input. cbn [Transaction.script_sig].
  destruct (TransactionInput.script_sig input) as [[|b script]|]; try done.
  destruct (Hscript [] eq_refl) as (sig & pk & _ & _ & _ & Hnil). done.
Qed.

End Calls.

(** The theorem at a new builder, an input added and signed. *)
Lemma perform_all_well_formed_witness :
  Forall input_well_formed
    (inputs (perform_all [@AddInput secp256k1 utxo0; @SignInput secp256k1 0 key7 SIGHASH_ALL nonce5] init)).
Proof.
  apply (perform_all_well_formed (E := secp256k1)
           [@AddInput secp256k1 utxo0; @SignInput secp256k1 0 key7 SIGHASH_ALL nonce5] init).
  constructor.
Defined.

(** ** Signing before the transaction is complete *)

Lemma data_to_sign_add_input self txid vout utxo :
  (length (inputs self) < 255)%nat ->
  data_to_sign (fst (add_input utxo self)) txid vout <> data_to_sign self txid vout.
Proof.
  intros Hn. unfold data_to_sign, add_input, bind, get, put.
  cbn [fst inputs outputs set_inputs]. rewrite length_app. intros Heq.
  apply app_inj_1 in Heq as [_ Heq]; [|done].
  apply app_inj_1 in Heq as [Heq _]; [|done].
  injection Heq as Heq. apply low_byte_inj in Heq; simpl in *; lia.
Qed.

Lemma data_to_sign_add_output self txid vout amount script_pubkey :
  (length (outputs self) < 255)%nat ->
  data_to_sign (fst (add_output amount script_pubkey self)) txid vout
  <> data_to_sign self txid vout.
Proof.
  intros Hm. unfold data_to_sign, add_output, bind, get, put.
  cbn [fst inputs outputs set_outputs]. rewrite length_app. intros Heq.
  rewrite !(assoc (++) [x01; x00; x00; x00]),
    !(assoc (++) _ txid), !(assoc (++) _ (le_bytes _ _)) in Heq.
  apply app_inj_2 in Heq as [_ Heq]; [|done].
  injection Heq as Heq. apply low_byte_inj in Heq; simpl in *; lia.
Qed.

(** X13: an input or output added later changes the bytes that are signed.
    For an index i in [0, n) whose input has a transaction id that can be
    encoded and its output index in [0, 2^32), and with room for one more
    input or output within the limit of 255, [create_signature_hash]
    returns the double SHA-256 of [data_to_sign] before and after one more
    [add_input] or [add_output], and the two byte strings differ: a script
    set before the call was made over other bytes than the builder now
    hashes. *)
Theorem create_signature_hash_after_growth self i t input txid :
  0 <= i < Z.of_nat (length (inputs self)) ->
  inputs self !! Z.to_nat i = Some input ->
  encode (TransactionInput.txid input) = Ok txid ->
  0 <= TransactionInput.vout input < 2 ^ 32 ->
  (length (inputs self) <= 255)%nat ->
  (length (outputs self) <= 255)%nat ->
  let data b := data_to_sign b txid (TransactionInput.vout input) in
  create_signature_hash i t self
  = (self, Ok (SHA256.digest (SHA256.digest (data self))))
  /\ (forall utxo, (length (inputs self) < 255)%nat ->
        let after := fst (add_input utxo self) in
        create_signature_hash i t after
        = (after, Ok (SHA256.digest (SHA256.digest (data after))))
        /\ data after <> data self)
  /\ (forall amount script_pubkey, (length (outputs self) < 255)%nat ->
        let after := fst (add_output amount script_pubkey self) in
        create_signature_hash i t after
        = (after, Ok (SHA256.digest (SHA256.digest (data after))))
        /\ data after <> data self).
Proof.
  intros Hi Hk Htxid Hv Hn Hm data. subst data. cbv beta.
  pose proof (getitem_resolved _ _ _ _ (index_nonneg _ _ Hi) Hk) as Hget.
  split_and!.
  - rewrite create_signature_hash_outcome.
    by rewrite (signature_hash_outcome_ok _ _ _ _ Hget Htxid Hn Hm Hv).
  - intros utxo Hn' after. split; [|by apply data_to_sign_add_input].
    rewrite create_signature_hash_outcome.
    rewrite (signature_hash_outcome_ok after i input txid); [done| |done|..].
    + subst after. unfold add_input, bind, get, put. cbn [fst inputs set_inputs].
      apply (getitem_resolved _ _ (Z.to_nat i)).
      * apply index_nonneg. rewrite length_app. simpl. lia.
      * by apply lookup_app_l_Some.
    + subst after. unfold add_input, bind, get, put. cbn [fst inputs set_inputs].
      rewrite length_app. simpl. lia.
    + done.
    + done.
  - intros amount script_pubkey Hm' after. split; [|by apply data_to_sign_add_output].
    rewrite create_signature_hash_outcome.
    rewrite (signature_hash_outcome_ok after i input txid); [done|done|done|done| |done].
    subst after. unfold add_output, bind, get, put. cbn [fst outputs set_outputs].
    rewrite length_app. simpl. lia.
Qed.

(** The theorem at the second input of the builder with two inputs and one
    more output. *)
Lemma create_signature_hash_after_growth_witness :
  data_to_sign (fst (add_output 1000 "76a914dd" two_input_builder)) txid1 1
  <> data_to_sign two_input_builder txid1 1.
Proof.
  destruct (create_signature_hash_after_growth two_input_builder 1 SIGHASH_ALL
              (TransactionInput.init utxo1) txid1) as (_ & _ & Hout).
  - simpl; lia.
  - reflexivity.
  - reflexivity.
  - simpl; lia.
  - simpl; lia.
  - simpl; lia.
  - apply (Hout 1000 "76a914dd"%string). simpl; lia.
Defined.

(** ** Coin selection and the order of the candidates *)

Lemma with_key_id_perm k (a b : list Z) :
  a ≡ₚ b -> with_key id k a = with_key id k b.
Proof.
  unfold with_key, id. induction 1 as [|x a b _ IH|x y a|a b c _ IH1 _ IH2].
  - done.
  - cbn [List.filter]. by rewrite IH.
  - cbn [List.filter].
    destruct (Z.eqb_spec y k), (Z.eqb_spec x k); congruence.
  - congruence.
Qed.

Lemma desc_fmap_amount (l : list UTXO.t) :
  StronglySorted (desc UTXO.amount) l ->
  StronglySorted (desc id) (UTXO.amount <$> l).
Proof.
  induction 1 as [|x l _ IH Hx]; [constructor|].
  cbn [fmap list_fmap]. constructor; [exact IH|].
  rewrite List.Forall_forall in *. intros a Ha.
  apply list_elem_of_In, list_elem_of_fmap in Ha as (u & -> & Hu).
  apply Hx. by apply list_elem_of_In.
Qed.

(** Candidate lists that are permutations of each other have the same
    amounts after sorting. *)
Lemma sorted_reverse_amounts l1 l2 :
  l1 ≡ₚ l2 ->
  UTXO.amount <$> sorted_reverse UTXO.amount l1
  = UTXO.amount <$> sorted_reverse UTXO.amount l2.
Proof.
  intros Hperm. apply (stable_desc_unique id).
  - apply desc_fmap_amount, sorted_reverse_sorted.
  - apply desc_fmap_amount, sorted_reverse_sorted.
  - intros k. apply with_key_id_perm.
    by rewrite !sorted_reverse_perm, Hperm.
Qed.

(** The loop looks at amounts only. *)
Lemma select_loop_amounts l1 l2 target s1 s2 total :
  UTXO.amount <$> l1 = UTXO.amount <$> l2 ->
  UTXO.amount <$> s1 = UTXO.amount <$> s2 ->
  UTXO.amount <$> fst (select_loop l1 target s1 total)
  = UTXO.amount <$> fst (select_loop l2 target s2 total)
  /\ snd (select_loop l1 target s1 total) = snd (select_loop l2 target s2 total).
Proof.
  revert l2 s1 s2 total. induction l1 as [|u1 l1 IH]; intros [|u2 l2] s1 s2 total Hl Hs;
    try done.
  cbn [fmap list_fmap] in Hl. injection Hl as Hu Hl.
  cbn [select_loop]. rewrite Hu.
  assert (Hs' : UTXO.amount <$> s1 ++ [u1] = UTXO.amount <$> s2 ++ [u2]).
  { rewrite !fmap_app. cbn [fmap list_fmap]. by rewrite Hs, Hu. }
  destruct (total + UTXO.amount u2 >=? target); [done|].
  by apply IH.
Qed.

(** X14: how much is selected does not depend on the order of the
    candidates: for two candidate lists that are permutations of each other
    [select_utxos] either raises the same exception for both or returns, for
    both, selections with the same amounts in the same order.  (Which of
    several UTXOs of one amount is taken may differ.) *)
Theorem select_utxos_order_independent self1 self2 available1 available2 target :
  available1 ≡ₚ available2 ->
  match snd (select_utxos target (self1, available1)),
        snd (select_utxos target (self2, available2)) with
  | Ok selected1, Ok selected2 =>
      UTXO.amount <$> selected1 = UTXO.amount <$> selected2
  | Raise e1, Raise e2 => e1 = e2
  | _, _ => False
  end.
Proof.
  intros Hperm. unfold select_utxos, bind, get. cbn [snd].
  destruct (select_loop_amounts
              (sorted_reverse UTXO.amount available1)
              (sorted_reverse UTXO.amount available2) target [] [] 0
              (sorted_reverse_amounts _ _ Hperm) eq_refl) as [Hsel Htot].
  destruct (select_loop (sorted_reverse UTXO.amount available1) target [] 0)
    as [sel1 tot1].
  destruct (select_loop (sorted_reverse UTXO.amount available2) target [] 0)
    as [sel2 tot2].
  cbn [fst snd] in Hsel, Htot. subst tot2.
  by destruct (tot1 <? target).
Qed.

(** The theorem at the test fixture and the same two UTXOs the other way
    round. *)
Lemma select_utxos_order_independent_witness :
  match snd (select_utxos 150000 (init, test_utxos)),
        snd (select_utxos 150000 (init, reverse test_utxos)) with
  | Ok selected1, Ok selected2 =>
      UTXO.amount <$> selected1 = UTXO.amount <$> selected2
  | Raise e1, Raise e2 => e1 = e2
  | _, _ => False
  end.
Proof.
  apply (select_utxos_order_independent init init test_utxos (reverse test_utxos) 150000).
  symmetry. apply reverse_Permutation.
Defined.
